(** * Reporting annotator of the CGB events planner

    A shallow embedding of the two reporting handlers of
    [src/backend/main.py] ([create_reporting_entry], POST /reporting, and
    [create_reporting_entry_manual], POST /reporting/manual), of the
    request schema [ReportingCreate] of [src/backend/schemas.py] and of
    the two tables of [src/backend/models.py] they touch.

    Modelling choices:
    - Python integers are [Z].  A [datetime.date] is its proleptic
      ordinal and a [datetime.time] its offset from midnight, both in
      [Z]: the handlers only compare dates with [<=], [<], [==] and times
      with [==].
    - A nullable column or an [Optional] field is an [option].
    - The database session is a state monad over the two tables.  Every
      SQLAlchemy query and every flushed write is a primitive of that
      monad and leaves an entry in an operation log, so that "this path
      issues no such query" is a statement about the log.
    - A table is the list of its rows in the order the database returns
      them; the primary key of a new [reporting] row is drawn from a
      sequence kept in the store.
    - [reporting.event_id] is declared
      [ForeignKey("events.id"), nullable=False] and the tables are made
      by [create_all] on PostgreSQL: an INSERT whose event id is the id
      of no stored event is refused with IntegrityError when it is
      committed, the row is not stored and the handler does not return.
    - Integers are [Z].  The INTEGER columns hold 32 bits; this range is
      not part of the store, and a property about a number the caller
      submits states it as a hypothesis ([int4]).

    Beside these two handlers the file embeds the other handlers of the
    reporting table ([list_reporting_for_event], [update_reporting_entry],
    [delete_reporting_entry]), the visitor report
    ([report_visitors_by_title]), the permission gates and the user
    handlers ([get_current_user], [get_current_admin],
    [get_current_welcome], [create_user], [update_user]) and
    [_normalise_remote_path].  There, functions of libraries
    ([jwt.decode], the password hash, [isoformat], [str.strip], [len])
    are variables of a section, a handler that raises [HTTPException]
    returns [Raise] with the store it was given, and the width of a
    column is not modelled. *)

From Stdlib Require Import ZArith String Ascii.
From stdpp Require Import base option list sorting gmap strings.

Local Open Scope string_scope.
Local Open Scope list_scope.
Local Open Scope Z_scope.

Abbreviation date := Z (only parsing).
Abbreviation time := Z (only parsing).

(** ** Tables ([models.py]) *)

Module Category.
Record t : Type := mk {
  id : Z;
  name : string
}.
End Category.

Module Event.
Record t : Type := mk {
  id : Z;
  parent_id : option Z;
  title : string;
  start_date : option date;
  end_date : option date;
  start_time : option time;
  end_time : option time;
  categories : list Category.t
}.
End Event.

Module Reporting.
Record t : Type := mk {
  id : Z;
  event_id : Z;
  event_title : string;
  event_date : option date;
  event_start_time : option time;
  visitor : option Z;
  vacation : option string;
  holiday : option string;
  special : option string
}.

(** [models.Reporting(event_id=..., ...)]: a transient object, which
    receives its primary key when it is flushed. *)
Definition new (event_id : Z) (event_title : string)
    (event_date : option date) (event_start_time : option time)
    (visitor : option Z) (vacation holiday special : option string)
    (pk : Z) : t :=
  mk pk event_id event_title event_date event_start_time
     visitor vacation holiday special.
End Reporting.

(** ** Request schema ([schemas.py]) *)

Module ReportingCreate.
(** [ReportingBase] declares [event_id: int] and [visitor: int] without a
    default; the other fields are [Optional[...] = None]. *)
Record t : Type := mk {
  event_id : Z;
  visitor : Z;
  vacation : option string;
  holiday : option string;
  special : option string;
  event_title : option string;
  event_date : option date;
  event_start_time : option time
}.
End ReportingCreate.

(** The JSON body of a request before validation: every key may be
    missing (or null). *)
Module Body.
Record t : Type := mk {
  event_id : option Z;
  visitor : option Z;
  vacation : option string;
  holiday : option string;
  special : option string;
  event_title : option string;
  event_date : option date;
  event_start_time : option time
}.
End Body.

(** Validation of a body against [ReportingCreate]: a field declared
    without a default is required, and the request is refused when it is
    missing. *)
Definition validate (b : Body.t) : option ReportingCreate.t :=
  event_id ← Body.event_id b;
  visitor ← Body.visitor b;
  Some (ReportingCreate.mk event_id visitor
          (Body.vacation b) (Body.holiday b) (Body.special b)
          (Body.event_title b) (Body.event_date b)
          (Body.event_start_time b)).

(** ** The store and the session monad *)

Record Store : Type := mkStore {
  events : list Event.t;
  reporting : list Reporting.t;
  reporting_seq : Z
}.

Inductive Op : Type :=
  | SelectEvent (id : Z)
  | SelectOverlapping (exclude : Z) (on_or_before : date)
  | SelectSameSlot (exclude : Z) (d : date) (tm : time)
  | SelectLatestReporting (event_id : Z)
  | InsertReporting (pk : Z)
  | UpdateReporting (pk : Z)
  | IntegrityError.

Global Instance Op_eq_dec : EqDecision Op.
Proof. solve_decision. Defined.

Definition Db (A : Type) : Type := Store → A * Store * list Op.

Global Instance Db_ret : MRet Db := λ A x s, (x, s, []).
Global Instance Db_bind : MBind Db := λ A B f m s,
  let r1 := m s in
  let r2 := f r1.1.1 r1.1.2 in
  (r2.1.1, r2.1.2, r1.2 ++ r2.2).

Definition result {A} (m : Db A) (s : Store) : A := (m s).1.1.
Definition final {A} (m : Db A) (s : Store) : Store := (m s).1.2.
Definition trace {A} (m : Db A) (s : Store) : list Op := (m s).2.

(** SQL comparisons are not satisfied by NULL. *)
Definition sql_le (a : option Z) (b : Z) : Prop :=
  match a with Some x => x ≤ b | None => False end.
Definition sql_eq (a : option Z) (b : Z) : Prop :=
  match a with Some x => x = b | None => False end.

Global Instance sql_le_dec a b : Decision (sql_le a b).
Proof. destruct a; simpl; apply _. Defined.
Global Instance sql_eq_dec a b : Decision (sql_eq a b).
Proof. destruct a; simpl; apply _. Defined.

(** [db.query(Event).filter(Event.id == id).first()] *)
Definition select_event (id : Z) : Db (option Event.t) := λ s,
  (head (filter (λ e, Event.id e = id) (events s)), s, [SelectEvent id]).

(** [db.query(Event).filter(Event.id != exclude)
      .filter(Event.start_date <= event_date).all()] *)
Definition select_overlapping (exclude : Z) (event_date : date)
    : Db (list Event.t) := λ s,
  (filter (λ e, sql_le (Event.start_date e) event_date)
     (filter (λ e, Event.id e ≠ exclude) (events s)),
   s, [SelectOverlapping exclude event_date]).

(** [db.query(Event).filter(Event.id != exclude)
      .filter(Event.start_date == event_date)
      .filter(Event.start_time == event_time).all()] *)
Definition select_same_slot (exclude : Z) (event_date : date)
    (event_time : time) : Db (list Event.t) := λ s,
  (filter (λ e, sql_eq (Event.start_time e) event_time)
     (filter (λ e, sql_eq (Event.start_date e) event_date)
        (filter (λ e, Event.id e ≠ exclude) (events s))),
   s, [SelectSameSlot exclude event_date event_time]).

(** [.order_by(Reporting.id.desc())] *)
Definition id_desc (a b : Reporting.t) : Prop :=
  Reporting.id b ≤ Reporting.id a.

Global Instance id_desc_dec : RelDecision id_desc.
Proof. intros a b. unfold id_desc. apply _. Defined.

(** [db.query(Reporting).filter(Reporting.event_id == event_id)
      .order_by(Reporting.id.desc()).first()] *)
Definition select_latest_reporting (event_id : Z)
    : Db (option Reporting.t) := λ s,
  (head (merge_sort id_desc
           (filter (λ r, Reporting.event_id r = event_id) (reporting s))),
   s, [SelectLatestReporting event_id]).

(** FOREIGN KEY (event_id) REFERENCES events (id) holds of a row. *)
Definition references_event (s : Store) (row : Reporting.t) : Prop :=
  Reporting.event_id row ∈ Event.id <$> events s.

Global Instance references_event_dec s row :
  Decision (references_event s row).
Proof. unfold references_event. apply _. Defined.

(** [db.add(reporting); db.commit(); db.refresh(reporting)].  The
    INSERT draws the primary key from the sequence and is checked
    against FOREIGN KEY (event_id) REFERENCES events (id).  When no
    event has the id the commit raises IntegrityError: the row is not
    stored, the key that was drawn is not given back, and the handler
    does not reach its [return].  The 32 bits of the INTEGER columns are
    not checked here: see [int4]. *)
Definition db_add (transient : Z → Reporting.t) : Db Reporting.t := λ s,
  let row := transient (reporting_seq s) in
  if decide (references_event s row) then
    (row,
     mkStore (events s) (reporting s ++ [row]) (reporting_seq s + 1),
     [InsertReporting (Reporting.id row)])
  else
    (row,
     mkStore (events s) (reporting s) (reporting_seq s + 1),
     [IntegrityError]).

(** The run ended in an exception of the database: [result] is then the
    object the handler held, which it did not return. *)
Definition raised {A} (m : Db A) (s : Store) : bool :=
  bool_decide (IntegrityError ∈ trace m s).

(** The range of an INTEGER column.  A commit that writes a number
    outside it raises as well; the store does not model this, and a
    property about a submitted number that is to hold of the program
    assumes the number in range. *)
Definition int4 (z : Z) : Prop := -2147483648 ≤ z ≤ 2147483647.

(** [db.commit(); db.refresh(existing)] after attribute assignments on a
    persistent object: UPDATE reporting SET ... WHERE id = existing.id. *)
Definition db_update (row : Reporting.t) : Db Reporting.t := λ s,
  (row,
   mkStore (events s)
     ((λ r, if decide (Reporting.id r = Reporting.id row) then row else r)
        <$> reporting s)
     (reporting_seq s),
   [UpdateReporting (Reporting.id row)]).

(** ** Python idioms *)

(** [x or d] on an [int]: zero is falsy. *)
Definition int_or (x d : Z) : Z := if decide (x = 0) then d else x.

(** [x or d] on an [Optional[str]]: [None] and the empty string are
    falsy. *)
Definition str_or (x : option string) (d : string) : string :=
  match x with
  | Some v => if decide (v = EmptyString) then d else v
  | None => d
  end.

(** [a if a is not None else b] *)
Definition if_not_none {A} (a b : option A) : option A :=
  match a with Some _ => a | None => b end.

(** [{c.name for c in (other.categories or [])}] *)
Definition cat_names (other : Event.t) : gset string :=
  list_to_set (Category.name <$> Event.categories other).

(** [", ".join(l)] *)
Definition join (sep : string) (l : list string) : string :=
  String.concat sep l.

(** ** Auto-detection ([create_reporting_entry], the two [for] loops) *)

(** [other.end_date is not None and other.end_date < event_date] *)
Definition ended_before (event_date : date) (other : Event.t) : Prop :=
  match Event.end_date other with
  | Some end_date => end_date < event_date
  | None => False
  end.

Global Instance ended_before_dec d other : Decision (ended_before d other).
Proof. unfold ended_before. destruct (Event.end_date other); apply _. Defined.

(** Body of [for other in overlapping_events], on the pair
    [(vacation_title, holiday_title)]. *)
Definition overlap_step (event_date : date)
    (st : option string * option string) (other : Event.t)
    : option string * option string :=
  if decide (ended_before event_date other) then st (* continue *)
  else
    let names := cat_names other in
    (if decide ("Ferien" ∈ names ∧ st.1 = None)
     then Some (Event.title other) else st.1,
     if decide ("Feiertag" ∈ names ∧ st.2 = None)
     then Some (Event.title other) else st.2).

(** Body of [for other in same_dt_events], on [special_titles]. *)
Definition special_step (special_titles : list string) (other : Event.t)
    : list string :=
  let names := cat_names other in
  if decide ("Lobpreisabend" ∈ names ∨ "Special" ∈ names) then
    if decide (Event.title other ≠ EmptyString)
    then special_titles ++ [Event.title other]
    else special_titles
  else special_titles.

(** Body of [for title in special_titles], on [(seen, deduped)]. *)
Definition dedup_step (st : gset string * list string) (title : string)
    : gset string * list string :=
  if decide (title ∉ st.1) then ({[title]} ∪ st.1, st.2 ++ [title])
  else st.

(** [special_value], from [special_titles]. *)
Definition special_value_of (special_titles : list string)
    : option string :=
  match special_titles with
  | [] => None
  | _ :: _ =>
      let deduped := (foldl dedup_step (∅, []) special_titles).2 in
      Some (join ", " deduped)
  end.

(** The block from [vacation_title: str | None = None] to the
    computation of [special_value]: the triple
    [(vacation_title, holiday_title, special_value)]. *)
Definition auto_detect (event : Event.t)
    : Db (option string * option string * option string) :=
  let event_date := Event.start_date event in
  let event_time := Event.start_time event in
  match event_date with
  | Some event_date =>
      overlapping_events ← select_overlapping (Event.id event) event_date;
      let titles :=
        foldl (overlap_step event_date) (None, None) overlapping_events in
      special_titles ←
        match event_time with
        | Some event_time =>
            same_dt_events ←
              select_same_slot (Event.id event) event_date event_time;
            mret (foldl special_step [] same_dt_events)
        | None => mret []
        end;
      mret (titles.1, titles.2, special_value_of special_titles)
  | None => mret (None, None, special_value_of [])
  end.

(** ** The handlers *)

(** POST /reporting *)
Definition create_reporting_entry (reporting_in : ReportingCreate.t)
    : Db Reporting.t :=
  event ← select_event (ReportingCreate.event_id reporting_in);
  match event with
  | None =>
      let manual_event_id :=
        int_or (ReportingCreate.event_id reporting_in) 99 in
      let title_value :=
        str_or (ReportingCreate.event_title reporting_in) EmptyString in
      db_add (Reporting.new manual_event_id title_value
                (ReportingCreate.event_date reporting_in)
                (ReportingCreate.event_start_time reporting_in)
                (Some (ReportingCreate.visitor reporting_in))
                (ReportingCreate.vacation reporting_in)
                (ReportingCreate.holiday reporting_in)
                (ReportingCreate.special reporting_in))
  | Some event =>
      detected ← auto_detect event;
      let vacation_title := detected.1.1 in
      let holiday_title := detected.1.2 in
      let special_value := detected.2 in
      existing ← select_latest_reporting (Event.id event);
      match existing with
      | Some existing =>
          db_update
            (Reporting.mk (Reporting.id existing)
               (Reporting.event_id existing)
               (Event.title event)
               (Event.start_date event)
               (Event.start_time event)
               (Some (ReportingCreate.visitor reporting_in))
               (if_not_none vacation_title
                  (ReportingCreate.vacation reporting_in))
               (if_not_none holiday_title
                  (ReportingCreate.holiday reporting_in))
               (if_not_none special_value
                  (ReportingCreate.special reporting_in)))
      | None =>
          db_add (Reporting.new (Event.id event)
                    (Event.title event)
                    (Event.start_date event)
                    (Event.start_time event)
                    (Some (ReportingCreate.visitor reporting_in))
                    (if_not_none vacation_title
                       (ReportingCreate.vacation reporting_in))
                    (if_not_none holiday_title
                       (ReportingCreate.holiday reporting_in))
                    (if_not_none special_value
                       (ReportingCreate.special reporting_in)))
      end
  end.

(** POST /reporting/manual *)
Definition create_reporting_entry_manual (reporting_in : ReportingCreate.t)
    : Db Reporting.t :=
  let event_id := int_or (ReportingCreate.event_id reporting_in) 99 in
  let title_value :=
    str_or (ReportingCreate.event_title reporting_in) EmptyString in
  db_add (Reporting.new event_id title_value
            (ReportingCreate.event_date reporting_in)
            (ReportingCreate.event_start_time reporting_in)
            (Some (ReportingCreate.visitor reporting_in))
            (ReportingCreate.vacation reporting_in)
            (ReportingCreate.holiday reporting_in)
            (ReportingCreate.special reporting_in)).

(** GET /reporting/by-event/{event_id} *)
Definition list_reporting_for_event (event_id : Z) (s : Store)
    : list Reporting.t :=
  merge_sort id_desc
    (filter (λ r, Reporting.event_id r = event_id) (reporting s)).

(** ** The endpoints: validation, then the handler *)

(** 200 with the entry, 422 from validation, 500 from an exception the
    handler does not catch. *)
Inductive Response : Type :=
  | Ok (entry : Reporting.t)
  | Unprocessable
  | ServerError.

Definition endpoint (handler : ReportingCreate.t → Db Reporting.t)
    (b : Body.t) : Db Response :=
  match validate b with
  | Some reporting_in => λ s,
      (if raised (handler reporting_in) s then ServerError
       else Ok (result (handler reporting_in) s),
       final (handler reporting_in) s,
       trace (handler reporting_in) s)
  | None => mret Unprocessable
  end.

Definition submit_reporting : Body.t → Db Response :=
  endpoint create_reporting_entry.
Definition submit_reporting_manual : Body.t → Db Response :=
  endpoint create_reporting_entry_manual.

(** ** A sample store *)

Definition cat (n : string) : Category.t := Category.mk 0 n.

Definition ev_service : Event.t :=
  Event.mk 1 None "Gottesdienst" (Some 100) None (Some 36000) None [].
Definition ev_ferien : Event.t :=
  Event.mk 2 None "Herbstferien" (Some 97) (Some 102) None None
    [cat "Ferien"; cat "Feiertag"].
Definition ev_special : Event.t :=
  Event.mk 3 None "Jugendgottesdienst" (Some 100) None (Some 36000) None
    [cat "Special"].
Definition ev_special' : Event.t :=
  Event.mk 4 None "Jugendgottesdienst" (Some 100) None (Some 36000) None
    [cat "Lobpreisabend"].
Definition ev_undated : Event.t :=
  Event.mk 5 None "Klausur" None None None None [].

Definition store0 : Store :=
  mkStore [ev_service; ev_ferien; ev_special; ev_special'; ev_undated]
    [Reporting.mk 3 1 "alt" None None (Some 40) None None None;
     Reporting.mk 7 1 "alt" None None None None None None;
     Reporting.mk 5 2 "Herbstferien" (Some 97) None (Some 0) None None None]
    8.

(** The same store with an event of id 99 for manual rows. *)
Definition ev_dummy : Event.t :=
  Event.mk 99 None "Manuell" None None None None [].
Definition store99 : Store :=
  mkStore (events store0 ++ [ev_dummy]) (reporting store0) 8.

Definition req (event_id visitor : Z) : ReportingCreate.t :=
  ReportingCreate.mk event_id visitor (Some "x") None None None None None.

(** The body that validates to a given request. *)
Definition body_of (r : ReportingCreate.t) : Body.t :=
  Body.mk (Some (ReportingCreate.event_id r))
    (Some (ReportingCreate.visitor r))
    (ReportingCreate.vacation r) (ReportingCreate.holiday r)
    (ReportingCreate.special r) (ReportingCreate.event_title r)
    (ReportingCreate.event_date r) (ReportingCreate.event_start_time r).

(** ** Vocabulary of the properties *)

(** The event an id resolves to, and the rows of one event. *)
Definition lookup_event (s : Store) (id : Z) : option Event.t :=
  result (select_event id) s.

Definition rows_of (event_id : Z) (s : Store) : list Reporting.t :=
  filter (λ r, Reporting.event_id r = event_id) (reporting s).

Definition count_rows (event_id : Z) (s : Store) : nat :=
  length (rows_of event_id s).

(** The primary key of [reporting] is unique. *)
Definition unique_ids (s : Store) : Prop :=
  NoDup (Reporting.id <$> reporting s).

(** [old] is the row with the highest id among those of [event_id]. *)
Definition is_latest (s : Store) (event_id : Z) (old : Reporting.t) : Prop :=
  old ∈ reporting s ∧ Reporting.event_id old = event_id ∧
  ∀ r, r ∈ reporting s → Reporting.event_id r = event_id →
       Reporting.id r ≤ Reporting.id old.

(** [start_date ≤ event_date ≤ end_date], an absent end date being no
    bound. *)
Definition covers (event_date : date) (other : Event.t) : Prop :=
  sql_le (Event.start_date other) event_date ∧
  match Event.end_date other with
  | Some end_date => event_date ≤ end_date
  | None => True
  end.

Global Instance covers_dec d other : Decision (covers d other).
Proof. unfold covers. destruct (Event.end_date other); apply _. Defined.

(** The first other event, in the order of the table, that covers the
    date and carries the category. *)
Definition first_tagged (tag : string) (event : Event.t) (event_date : date)
    (s : Store) : option Event.t :=
  head (filter (λ o, Event.id o ≠ Event.id event ∧ covers event_date o ∧
                     tag ∈ cat_names o) (events s)).

(** The other events of the same date and time that carry one of the two
    worship-evening categories and have a non-empty title. *)
Definition same_slot_special (event : Event.t) (d : date) (tm : time)
    (other : Event.t) : Prop :=
  Event.id other ≠ Event.id event ∧
  sql_eq (Event.start_date other) d ∧ sql_eq (Event.start_time other) tm ∧
  ("Lobpreisabend" ∈ cat_names other ∨ "Special" ∈ cat_names other) ∧
  Event.title other ≠ EmptyString.

Global Instance same_slot_special_dec event d tm other :
  Decision (same_slot_special event d tm other).
Proof. unfold same_slot_special. apply _. Defined.

Definition same_slot_titles (event : Event.t) (d : date) (tm : time)
    (s : Store) : list string :=
  Event.title <$> filter (same_slot_special event d tm) (events s).

(** Deduplication that keeps the first occurrence of every element. *)
Fixpoint dedup_first (l : list string) : list string :=
  match l with
  | [] => []
  | x :: l' => x :: filter (λ y, y ≠ x) (dedup_first l')
  end.

(** The special annotation as the specification words it. *)
Definition special_spec (titles : list string) : option string :=
  match dedup_first titles with
  | [] => None
  | t :: ts => Some (join ", " (t :: ts))
  end.

(** Queries of the auto-detection, and writes. *)
Definition is_detection (op : Op) : bool :=
  match op with
  | SelectOverlapping _ _ | SelectSameSlot _ _ _ => true
  | _ => false
  end.

Definition is_write (op : Op) : bool :=
  match op with
  | InsertReporting _ | UpdateReporting _ => true
  | _ => false
  end.

(** The row both event-backed branches build: snapshot fields from the
    event, visitor from the request, annotations merged. *)
Definition annotated (reporting_in : ReportingCreate.t) (event : Event.t)
    (detected : option string * option string * option string)
    (pk event_id : Z) : Reporting.t :=
  Reporting.mk pk event_id
    (Event.title event) (Event.start_date event) (Event.start_time event)
    (Some (ReportingCreate.visitor reporting_in))
    (if_not_none detected.1.1 (ReportingCreate.vacation reporting_in))
    (if_not_none detected.1.2 (ReportingCreate.holiday reporting_in))
    (if_not_none detected.2 (ReportingCreate.special reporting_in)).

(** The row the manual branches build. *)
Definition manual_row (reporting_in : ReportingCreate.t) (pk : Z)
    : Reporting.t :=
  Reporting.mk pk
    (int_or (ReportingCreate.event_id reporting_in) 99)
    (str_or (ReportingCreate.event_title reporting_in) EmptyString)
    (ReportingCreate.event_date reporting_in)
    (ReportingCreate.event_start_time reporting_in)
    (Some (ReportingCreate.visitor reporting_in))
    (ReportingCreate.vacation reporting_in)
    (ReportingCreate.holiday reporting_in)
    (ReportingCreate.special reporting_in).

(** What the auto-detection finds, in the words of the specification. *)
Definition detected_spec (event : Event.t) (s : Store)
    : option string * option string * option string :=
  match Event.start_date event with
  | Some d =>
      (Event.title <$> first_tagged "Ferien" event d s,
       Event.title <$> first_tagged "Feiertag" event d s,
       match Event.start_time event with
       | Some tm => special_spec (same_slot_titles event d tm s)
       | None => None
       end)
  | None => (None, None, None)
  end.

(** ** The other reporting handlers ([main.py]) *)

(** A handler returns its value or raises [HTTPException(status_code,
    detail)]. *)
Inductive Http (A : Type) : Type :=
  | Return (a : A)
  | Raise (status_code : Z) (detail : string).
Arguments Return {A} a.
Arguments Raise {A} status_code detail.

Module ReportingUpdate.
(** Every field is [Optional[...] = None]. *)
Record t : Type := mk {
  visitor : option Z;
  event_title : option string;
  event_date : option date;
  event_start_time : option time;
  vacation : option string;
  holiday : option string;
  special : option string
}.
End ReportingUpdate.

(** [db.query(Reporting).filter(Reporting.id == reporting_id).first()] *)
Definition select_reporting (s : Store) (reporting_id : Z)
    : option Reporting.t :=
  head (filter (λ r, Reporting.id r = reporting_id) (reporting s)).

(** [if x is not None: reporting.field = x] *)
Definition assign_if_not_none {A} (x : option A)
    (set : A → Reporting.t → Reporting.t) (reporting : Reporting.t)
    : Reporting.t :=
  match x with
  | Some v => set v reporting
  | None => reporting
  end.

Definition set_visitor (v : Z) (r : Reporting.t) : Reporting.t :=
  Reporting.mk (Reporting.id r) (Reporting.event_id r)
    (Reporting.event_title r) (Reporting.event_date r)
    (Reporting.event_start_time r) (Some v)
    (Reporting.vacation r) (Reporting.holiday r) (Reporting.special r).
Definition set_event_title (v : string) (r : Reporting.t) : Reporting.t :=
  Reporting.mk (Reporting.id r) (Reporting.event_id r)
    v (Reporting.event_date r)
    (Reporting.event_start_time r) (Reporting.visitor r)
    (Reporting.vacation r) (Reporting.holiday r) (Reporting.special r).
Definition set_event_date (v : date) (r : Reporting.t) : Reporting.t :=
  Reporting.mk (Reporting.id r) (Reporting.event_id r)
    (Reporting.event_title r) (Some v)
    (Reporting.event_start_time r) (Reporting.visitor r)
    (Reporting.vacation r) (Reporting.holiday r) (Reporting.special r).
Definition set_event_start_time (v : time) (r : Reporting.t)
    : Reporting.t :=
  Reporting.mk (Reporting.id r) (Reporting.event_id r)
    (Reporting.event_title r) (Reporting.event_date r)
    (Some v) (Reporting.visitor r)
    (Reporting.vacation r) (Reporting.holiday r) (Reporting.special r).
Definition set_vacation (v : string) (r : Reporting.t) : Reporting.t :=
  Reporting.mk (Reporting.id r) (Reporting.event_id r)
    (Reporting.event_title r) (Reporting.event_date r)
    (Reporting.event_start_time r) (Reporting.visitor r)
    (Some v) (Reporting.holiday r) (Reporting.special r).
Definition set_holiday (v : string) (r : Reporting.t) : Reporting.t :=
  Reporting.mk (Reporting.id r) (Reporting.event_id r)
    (Reporting.event_title r) (Reporting.event_date r)
    (Reporting.event_start_time r) (Reporting.visitor r)
    (Reporting.vacation r) (Some v) (Reporting.special r).
Definition set_special (v : string) (r : Reporting.t) : Reporting.t :=
  Reporting.mk (Reporting.id r) (Reporting.event_id r)
    (Reporting.event_title r) (Reporting.event_date r)
    (Reporting.event_start_time r) (Reporting.visitor r)
    (Reporting.vacation r) (Reporting.holiday r) (Some v).

(** The seven conditional assignments of [update_reporting_entry], in
    the order of the source. *)
Definition apply_update (reporting_in : ReportingUpdate.t)
    (reporting : Reporting.t) : Reporting.t :=
  let reporting :=
    assign_if_not_none (ReportingUpdate.visitor reporting_in)
      set_visitor reporting in
  let reporting :=
    assign_if_not_none (ReportingUpdate.event_title reporting_in)
      set_event_title reporting in
  let reporting :=
    assign_if_not_none (ReportingUpdate.event_date reporting_in)
      set_event_date reporting in
  let reporting :=
    assign_if_not_none (ReportingUpdate.event_start_time reporting_in)
      set_event_start_time reporting in
  let reporting :=
    assign_if_not_none (ReportingUpdate.vacation reporting_in)
      set_vacation reporting in
  let reporting :=
    assign_if_not_none (ReportingUpdate.holiday reporting_in)
      set_holiday reporting in
  assign_if_not_none (ReportingUpdate.special reporting_in)
    set_special reporting.

(** PUT /reporting/{reporting_id} *)
Definition update_reporting_entry (reporting_id : Z)
    (reporting_in : ReportingUpdate.t) (s : Store)
    : Http Reporting.t * Store :=
  match select_reporting s reporting_id with
  | None => (Raise 404 "Reporting entry not found", s)
  | Some reporting =>
      let reporting := apply_update reporting_in reporting in
      (Return reporting, final (db_update reporting) s)
  end.

(** [db.delete(reporting); db.commit()]:
    DELETE FROM reporting WHERE id = reporting.id. *)
Definition db_delete (row : Reporting.t) (s : Store) : Store :=
  mkStore (events s)
    (filter (λ r, Reporting.id r ≠ Reporting.id row) (reporting s))
    (reporting_seq s).

(** DELETE /reporting/{reporting_id} *)
Definition delete_reporting_entry (reporting_id : Z) (s : Store)
    : Http unit * Store :=
  match select_reporting s reporting_id with
  | None => (Raise 404 "Reporting entry not found", s)
  | Some reporting => (Return (), db_delete reporting s)
  end.

(** The ids of [reporting] were drawn from its sequence. *)
Definition ids_below_seq (s : Store) : Prop :=
  Forall (λ r, Reporting.id r < reporting_seq s) (reporting s).

Definition store_ok (s : Store) : Prop := unique_ids s ∧ ids_below_seq s.


Definition patch0 : ReportingUpdate.t :=
  ReportingUpdate.mk (Some 12) None None None (Some "Herbst") None None.

(** ** The visitor report ([report_visitors_by_title]) *)

Module VisitorItem.
(** One dictionary of the response. *)
Record t : Type := mk {
  id : Z;
  event_id : Z;
  date : string;
  title : string;
  event_start_time : option string;
  visitors : Z;
  vacation : option string;
  holiday : option string;
  special : option string
}.
End VisitorItem.

(** [Reporting.event_date >= d]; not satisfied by NULL. *)
Definition sql_ge (a : option Z) (b : Z) : Prop :=
  match a with Some x => b ≤ x | None => False end.

Global Instance sql_ge_dec a b : Decision (sql_ge a b).
Proof. destruct a; simpl; apply _. Defined.

(** A descending sort key of a nullable column.  The database of
    [database.py] is PostgreSQL, where NULL sorts as larger than every
    value, hence first in descending order: [desc_before x y] says that
    [x] sorts strictly before [y]. *)
Definition desc_before (x y : option Z) : Prop :=
  match x, y with
  | None, Some _ => True
  | Some a, Some b => b < a
  | _, None => False
  end.

Global Instance desc_before_dec x y : Decision (desc_before x y).
Proof. destruct x, y; simpl; apply _. Defined.

(** [.order_by(Reporting.event_date.desc(),
      Reporting.event_start_time.desc(), Reporting.id.desc())] *)
Definition report_order (a b : Reporting.t) : Prop :=
  desc_before (Reporting.event_date a) (Reporting.event_date b) ∨
  Reporting.event_date a = Reporting.event_date b ∧
  (desc_before (Reporting.event_start_time a) (Reporting.event_start_time b) ∨
   Reporting.event_start_time a = Reporting.event_start_time b ∧
   Reporting.id b ≤ Reporting.id a).

Global Instance report_order_dec : RelDecision report_order.
Proof. intros a b. unfold report_order. apply _. Defined.

Section report.
(** [datetime.date.isoformat] and [datetime.time.isoformat]. *)
Variable date_isoformat : date → string.
Variable time_isoformat : time → string.

(** The dictionary appended for an entry with a visitor count. *)
Definition report_item (entry : Reporting.t) (visitors : Z)
    : VisitorItem.t :=
  let date_str :=
    match Reporting.event_date entry with
    | Some d => date_isoformat d
    | None => EmptyString
    end in
  VisitorItem.mk (Reporting.id entry) (Reporting.event_id entry)
    date_str
    (str_or (Some (Reporting.event_title entry)) EmptyString)
    (time_isoformat <$> Reporting.event_start_time entry)
    visitors
    (Reporting.vacation entry) (Reporting.holiday entry)
    (Reporting.special entry).

(** Body of [for entry in entries], on [results]. *)
Definition report_step (results : list VisitorItem.t) (entry : Reporting.t)
    : list VisitorItem.t :=
  match Reporting.visitor entry with
  | None => results (* continue *)
  | Some visitors => results ++ [report_item entry visitors]
  end.

(** GET /reports/visitors-by-title; [start_date] and [end_date] stand
    for [start_date.date()] and [end_date.date()] of the parameters. *)
Definition report_visitors_by_title (start_date end_date : option date)
    (s : Store) : list VisitorItem.t :=
  let query := reporting s in
  let query :=
    match start_date with
    | Some d => filter (λ r, sql_ge (Reporting.event_date r) d) query
    | None => query
    end in
  let query :=
    match end_date with
    | Some d => filter (λ r, sql_le (Reporting.event_date r) d) query
    | None => query
    end in
  let entries := merge_sort report_order query in
  foldl report_step [] entries.
End report.

(** The rows a report with these bounds is about. *)
Definition in_bounds (start_date end_date : option date)
    (r : Reporting.t) : Prop :=
  match start_date with
  | Some d => sql_ge (Reporting.event_date r) d
  | None => True
  end ∧
  match end_date with
  | Some d => sql_le (Reporting.event_date r) d
  | None => True
  end.

Global Instance in_bounds_dec start_date end_date r :
  Decision (in_bounds start_date end_date r).
Proof. unfold in_bounds. destruct start_date, end_date; apply _. Defined.

(** ** Users and the permission gates ([main.py], [models.py]) *)

Module User.
(** [is_active] is declared without [nullable=False]. *)
Record t : Type := mk {
  id : Z;
  username : string;
  password_hash : string;
  role : string;
  is_active : option bool
}.
End User.

Module UserCreate.
Record t : Type := mk {
  username : string;
  password : string;
  role : string;
  is_active : bool
}.
End UserCreate.

Module UserUpdate.
Record t : Type := mk {
  password : option string;
  role : option string;
  is_active : option bool
}.
End UserUpdate.

(** The table [users] and the sequence of its primary key. *)
Record Accounts : Type := mkAccounts {
  users : list User.t;
  users_seq : Z
}.

Global Instance Http_ret : MRet Http := λ A x, Return x.
Global Instance Http_bind : MBind Http := λ A B f m,
  match m with
  | Return a => f a
  | Raise status_code detail => Raise status_code detail
  end.

(** [db.query(User).filter(User.username == username).first()] *)
Definition get_user_by_username (db : Accounts) (username : string)
    : option User.t :=
  head (filter (λ u, User.username u = username) (users db)).

(** [current_user.role != "admin"] raises 403. *)
Definition get_current_admin (current_user : User.t) : Http User.t :=
  if decide (User.role current_user ≠ "admin")
  then Raise 403 "Insufficient permissions"
  else Return current_user.

(** [current_user.role not in ("welcome", "admin")] raises 403. *)
Definition get_current_welcome (current_user : User.t) : Http User.t :=
  if decide (User.role current_user ∉ ["welcome"; "admin"])
  then Raise 403 "Insufficient permissions"
  else Return current_user.

(** [("admin", "viewer", "welcome")] *)
Definition known_roles : list string := ["admin"; "viewer"; "welcome"].

Definition set_role (v : string) (u : User.t) : User.t :=
  User.mk (User.id u) (User.username u) (User.password_hash u) v
    (User.is_active u).
Definition set_is_active (v : bool) (u : User.t) : User.t :=
  User.mk (User.id u) (User.username u) (User.password_hash u)
    (User.role u) (Some v).
Definition set_password_hash (v : string) (u : User.t) : User.t :=
  User.mk (User.id u) (User.username u) v (User.role u) (User.is_active u).

(** UPDATE users SET ... WHERE id = user.id *)
Definition commit_user (user : User.t) (db : Accounts) : Accounts :=
  mkAccounts
    ((λ u, if decide (User.id u = User.id user) then user else u)
       <$> users db)
    (users_seq db).

Section accounts.
(** [jwt.decode(token, ...)] followed by [payload.get("sub")]: [None]
    when decoding raises [JWTError], [Some None] when there is no
    subject. *)
Variable decode_sub : string → option (option string).
(** [get_password_hash], and the built-ins [str.strip] and [len]. *)
Variable get_password_hash : string → string.
Variable strip : string → string.
Variable len : string → Z.

Definition credentials_exception {A} : Http A :=
  Raise 401 "Could not validate credentials".

Definition get_current_user (db : Accounts) (token : string)
    : Http User.t :=
  match decode_sub token with
  | None => credentials_exception
  | Some None => credentials_exception
  | Some (Some username) =>
      match get_user_by_username db username with
      | None => credentials_exception
      | Some user =>
          match User.is_active user with
          | Some true => Return user
          | _ => credentials_exception (* not user.is_active *)
          end
      end
  end.

(** POST /users, behind [get_current_admin]. *)
Definition create_user (payload : UserCreate.t) (db : Accounts)
    : Http User.t * Accounts :=
  let username :=
    strip (str_or (Some (UserCreate.username payload)) EmptyString) in
  if decide (username = EmptyString) then
    (Raise 400 "Username is required", db)
  else if decide (UserCreate.role payload ∉ known_roles) then
    (Raise 400 "Invalid role (must be admin, viewer or welcome)", db)
  else if decide (UserCreate.password payload = EmptyString ∨
                  len (UserCreate.password payload) < 6) then
    (Raise 400 "Password must be at least 6 characters", db)
  else
    match get_user_by_username db username with
    | Some existing => (Raise 400 "Username already exists", db)
    | None =>
        let user :=
          User.mk (users_seq db) username
            (get_password_hash (UserCreate.password payload))
            (UserCreate.role payload)
            (Some (UserCreate.is_active payload)) in
        (Return user, mkAccounts (users db ++ [user]) (users_seq db + 1))
    end.

(** The assignments of [update_user] on the loaded object, up to the
    first [raise]. *)
Definition apply_user_update (payload : UserUpdate.t) (user : User.t)
    : Http User.t :=
  user ←
    match UserUpdate.role payload with
    | Some role =>
        if decide (role ∉ known_roles)
        then Raise 400 "Invalid role (must be admin, viewer or welcome)"
        else Return (set_role role user)
    | None => Return user
    end;
  let user :=
    match UserUpdate.is_active payload with
    | Some is_active => set_is_active is_active user
    | None => user
    end in
  match UserUpdate.password payload with
  | Some password =>
      if decide (len password < 6)
      then Raise 400 "Password must be at least 6 characters"
      else Return (set_password_hash (get_password_hash password) user)
  | None => Return user
  end.

(** PUT /users/{user_id}, behind [get_current_admin].  An object that
    was assigned to before a [raise] is not committed. *)
Definition update_user (user_id : Z) (payload : UserUpdate.t)
    (current_admin : User.t) (db : Accounts) : Http User.t * Accounts :=
  match head (filter (λ u, User.id u = user_id) (users db)) with
  | None => (Raise 404 "User not found", db)
  | Some user =>
      if decide (User.id user = User.id current_admin ∧
                 UserUpdate.is_active payload = Some false)
      then (Raise 400 "You cannot deactivate your own account", db)
      else
        match apply_user_update payload user with
        | Return user => (Return user, commit_user user db)
        | Raise status_code detail => (Raise status_code detail, db)
        end
  end.
End accounts.

(** The keys of [users] are unique and were drawn from the sequence, the
    names are unique, and every role is one the handlers accept. *)
Definition accounts_ok (db : Accounts) : Prop :=
  NoDup (User.id <$> users db) ∧
  Forall (λ u, User.id u < users_seq db) (users db) ∧
  NoDup (User.username <$> users db) ∧
  Forall (λ u, User.role u ∈ known_roles) (users db).

Definition user_admin : User.t :=
  User.mk 1 "anna" "h1" "admin" (Some true).
Definition user_welcome : User.t :=
  User.mk 2 "ben" "h2" "welcome" (Some true).
Definition user_viewer : User.t :=
  User.mk 3 "cem" "h3" "viewer" None.
Definition accounts0 : Accounts :=
  mkAccounts [user_admin; user_welcome; user_viewer] 4.

Definition user_off : User.t :=
  User.mk 4 "dora" "h4" "admin" (Some false).
Definition accounts1 : Accounts := mkAccounts [user_admin; user_off] 5.

(** Stand-ins for the library functions, for the examples. *)
Definition hash0 (password : string) : string := "#" +:+ password.
Definition strip0 (s : string) : string := s.
Definition len0 (s : string) : Z := Z.of_nat (String.length s).

(** ** Remote paths ([_normalise_remote_path]) *)

(** [p.startswith("/")] *)
Definition startswith_slash (p : string) : bool :=
  match p with
  | String c _ => bool_decide (c = "/"%char)
  | EmptyString => false
  end.

(** [p.rstrip("/")] *)
Fixpoint rstrip_slash (p : string) : string :=
  match p with
  | EmptyString => EmptyString
  | String c rest =>
      match rstrip_slash rest with
      | EmptyString =>
          if decide (c = "/"%char) then EmptyString
          else String c EmptyString
      | String c' kept => String c (String c' kept)
      end
  end.

Section paths.
(** The built-in [str.strip]. *)
Variable strip : string → string.

Definition _normalise_remote_path (path_value : string) : string :=
  let p := strip (str_or (Some path_value) EmptyString) in
  let p := if startswith_slash p then p else "/" +:+ p in
  if decide (p ≠ "/") then rstrip_slash p else p.
End paths.

(** The string of [n] slashes. *)
Fixpoint slashes (n : nat) : string :=
  match n with
  | O => EmptyString
  | S n => String "/" (slashes n)
  end.

(** ** The loops *)

Section loops.
Implicit Types (l : list Event.t) (other : Event.t) (d : date).

(** A title that has been found survives every later candidate. *)
Lemma overlap_step_keeps_vacation d t h other :
  (overlap_step d (Some t, h) other).1 = Some t.
Proof.
  unfold overlap_step. case_decide; [done|]. simpl.
  case_decide as Hc; [by destruct Hc|done].
Qed.

Lemma overlap_step_keeps_holiday d v t other :
  (overlap_step d (v, Some t) other).2 = Some t.
Proof.
  unfold overlap_step. case_decide; [done|]. simpl.
  destruct (decide (_ ∧ Some t = None)) as [Hc|]; [by destruct Hc|done].
Qed.

(** The loop over the overlapping events keeps the first title of
    each kind. *)
Lemma foldl_overlap_step d l st :
  foldl (overlap_step d) st l =
  (if_not_none st.1
     (Event.title <$>
        head (filter (λ o, ¬ ended_before d o ∧ "Ferien" ∈ cat_names o) l)),
   if_not_none st.2
     (Event.title <$>
        head (filter (λ o, ¬ ended_before d o ∧ "Feiertag" ∈ cat_names o)
                l))).
Proof.
  revert st. induction l as [|other l IH]; intros [v h].
  - by destruct v, h.
  - simpl foldl. rewrite IH. clear IH. unfold overlap_step.
    rewrite !filter_cons.
    destruct (decide (ended_before d other)) as [He|He]; simpl.
    + rewrite !decide_False by tauto. done.
    + f_equal.
      * destruct (decide ("Ferien" ∈ cat_names other)) as [Hc|Hc].
        -- rewrite (decide_True (P := ¬ _ ∧ _)) by tauto.
           destruct v; simpl; [by rewrite decide_False by naive_solver|].
           by rewrite decide_True by tauto.
        -- rewrite (decide_False (P := ¬ _ ∧ _)) by tauto.
           by rewrite decide_False by tauto.
      * destruct (decide ("Feiertag" ∈ cat_names other)) as [Hc|Hc].
        -- rewrite (decide_True (P := ¬ _ ∧ _)) by tauto.
           destruct h; simpl; [by rewrite decide_False by naive_solver|].
           by rewrite decide_True by tauto.
        -- rewrite (decide_False (P := ¬ _ ∧ _)) by tauto.
           by rewrite decide_False by tauto.
Qed.

Lemma covers_iff d other :
  covers d other ↔
  sql_le (Event.start_date other) d ∧ ¬ ended_before d other.
Proof.
  unfold covers, ended_before.
  destruct (Event.end_date other); intuition lia.
Qed.

(** The candidates of the loop that pass its date test and carry [tag]
    are the other events that cover the date and carry [tag]. *)
Lemma overlapping_candidates (tag : string) (exclude : Z) d l :
  filter (λ o, ¬ ended_before d o ∧ tag ∈ cat_names o)
    (filter (λ e, sql_le (Event.start_date e) d)
       (filter (λ e, Event.id e ≠ exclude) l)) =
  filter (λ o, Event.id o ≠ exclude ∧ covers d o ∧ tag ∈ cat_names o) l.
Proof.
  rewrite !list_filter_filter. apply list_filter_iff.
  intros o. rewrite covers_iff. tauto.
Qed.

(** The loop over the events of the same slot collects the non-empty
    titles of those that carry one of the two categories. *)
Lemma foldl_special_step l acc :
  foldl special_step acc l =
  acc ++ (Event.title <$>
            filter (λ o, ("Lobpreisabend" ∈ cat_names o ∨
                          "Special" ∈ cat_names o) ∧
                         Event.title o ≠ EmptyString) l).
Proof.
  revert acc. induction l as [|other l IH]; intros acc; simpl.
  - by rewrite app_nil_r.
  - rewrite IH, filter_cons. unfold special_step.
    destruct (decide (_ ∨ _)) as [Hc|Hc].
    + destruct (decide (Event.title other ≠ EmptyString)) as [Ht|Ht].
      * rewrite decide_True by tauto. simpl. by rewrite <- app_assoc.
      * by rewrite decide_False by tauto.
    + by rewrite decide_False by tauto.
Qed.

Lemma same_slot_candidates (event : Event.t) d (tm : time) l :
  filter (λ o, ("Lobpreisabend" ∈ cat_names o ∨ "Special" ∈ cat_names o) ∧
               Event.title o ≠ EmptyString)
    (filter (λ e, sql_eq (Event.start_time e) tm)
       (filter (λ e, sql_eq (Event.start_date e) d)
          (filter (λ e, Event.id e ≠ Event.id event) l))) =
  filter (same_slot_special event d tm) l.
Proof.
  rewrite !list_filter_filter. apply list_filter_iff.
  intros o. unfold same_slot_special. tauto.
Qed.
End loops.

(** ** Deduplication and joining *)

Section dedup.
Implicit Types (l acc : list string) (seen : gset string).

Lemma foldl_dedup_step l seen acc :
  (foldl dedup_step (seen, acc) l).2 =
  acc ++ filter (λ y, y ∉ seen) (dedup_first l).
Proof.
  revert seen acc. induction l as [|x l IH]; intros seen acc; simpl.
  - by rewrite app_nil_r.
  - unfold dedup_step at 2. simpl. rewrite filter_cons.
    destruct (decide (x ∉ seen)) as [Hx|Hx].
    + rewrite IH, <- app_assoc. simpl. do 2 f_equal.
      rewrite list_filter_filter. apply list_filter_iff.
      intros y. set_solver.
    + rewrite IH. f_equal.
      rewrite list_filter_filter. apply list_filter_iff.
      intros y. split; [|tauto]. intros Hy. split; [done|].
      intros ->. done.
Qed.

Lemma filter_all {A} (P : A → Prop) `{!∀ x, Decision (P x)} (k : list A) :
  (∀ x, x ∈ k → P x) → filter P k = k.
Proof.
  induction k as [|x k IH]; intros Hk; [done|].
  rewrite filter_cons_True by (apply Hk; left).
  f_equal. apply IH. intros y Hy. apply Hk. by right.
Qed.

Lemma dedup_loop l : (foldl dedup_step (∅, []) l).2 = dedup_first l.
Proof.
  rewrite foldl_dedup_step. simpl. apply filter_all. set_solver.
Qed.

Lemma elem_of_dedup_first l x : x ∈ dedup_first l ↔ x ∈ l.
Proof.
  induction l as [|y l IH]; simpl; [done|].
  rewrite !elem_of_cons, list_elem_of_filter, IH.
  destruct (decide (x = y)); naive_solver.
Qed.

Lemma NoDup_dedup_first l : NoDup (dedup_first l).
Proof.
  induction l as [|y l IH]; simpl; [constructor|].
  apply NoDup_cons. split; [|by apply NoDup_filter].
  rewrite list_elem_of_filter. tauto.
Qed.

Lemma filter_dedup_first (P : string → Prop) `{!∀ x, Decision (P x)} l :
  filter P (dedup_first l) = dedup_first (filter P l).
Proof.
  induction l as [|y l IH]; [done|]. simpl dedup_first.
  rewrite !filter_cons. destruct (decide (P y)) as [Hy|Hy]; simpl.
  - f_equal. rewrite <- IH, !list_filter_filter.
    apply list_filter_iff. tauto.
  - rewrite <- IH. apply list_filter_filter_l. by intros z Hz ->.
Qed.

(** A title that occurred before is dropped where it occurs again. *)
Lemma dedup_first_seen l1 l2 x :
  x ∈ l1 → dedup_first (l1 ++ x :: l2) = dedup_first (l1 ++ l2).
Proof.
  induction l1 as [|y l1 IH]; intros Hx; [by apply elem_of_nil in Hx|].
  simpl. f_equal. destruct (decide (x = y)) as [->|Hne].
  - rewrite !filter_dedup_first, !filter_app.
    by rewrite filter_cons_False by tauto.
  - apply elem_of_cons in Hx as [?|Hx]; [done|]. by rewrite IH.
Qed.

Lemma dedup_first_nil l : dedup_first l = [] ↔ l = [].
Proof. destruct l; simpl; split; done. Qed.

Lemma join_nonempty (sep t : string) l :
  t ≠ EmptyString → join sep (t :: l) ≠ EmptyString.
Proof.
  intros Ht. unfold join. destruct l; simpl; [done|].
  destruct t; [done|]. discriminate.
Qed.

(** The deduplication loop and [join] compute the specified value. *)
Lemma special_value_of_spec l : special_value_of l = special_spec l.
Proof.
  unfold special_value_of, special_spec. destruct l as [|x l]; [done|].
  by rewrite dedup_loop.
Qed.

Lemma special_spec_not_empty l :
  Forall (λ t, t ≠ EmptyString) l → special_spec l ≠ Some EmptyString.
Proof.
  intros Hl. unfold special_spec. destruct l as [|x l]; simpl; [done|].
  intros [= Heq]. apply Forall_cons in Hl as [Hx _].
  by apply (join_nonempty ", " x (filter (λ y, y ≠ x) (dedup_first l))).
Qed.
End dedup.

(** ** The store *)

Section store.
Implicit Types (s : Store) (rows : list Reporting.t) (r old new : Reporting.t).

Global Instance id_desc_trans : Transitive id_desc.
Proof. unfold id_desc. intros a b c. lia. Qed.

Global Instance id_desc_total : Total id_desc.
Proof. unfold id_desc. intros a b. lia. Qed.

(** The first row in descending order of id has the highest id. *)
Lemma head_id_desc rows r :
  head (merge_sort id_desc rows) = Some r →
  r ∈ rows ∧ ∀ r', r' ∈ rows → Reporting.id r' ≤ Reporting.id r.
Proof.
  intros Hhead.
  pose proof (StronglySorted_merge_sort id_desc rows) as Hsorted.
  pose proof (merge_sort_Permutation id_desc rows) as Hperm.
  destruct (merge_sort id_desc rows) as [|r0 sorted]; simplify_eq/=.
  split.
  - rewrite <- Hperm. left.
  - intros r' Hr'. rewrite <- Hperm in Hr'.
    apply StronglySorted_inv in Hsorted as [_ Hall].
    apply elem_of_cons in Hr' as [->|Hr']; [lia|].
    by apply (proj1 (Forall_forall _ _) Hall r').
Qed.

Lemma head_id_desc_None rows :
  head (merge_sort id_desc rows) = None ↔ rows = [].
Proof.
  pose proof (merge_sort_Permutation id_desc rows) as Hperm.
  split.
  - intros Hhead. destruct (merge_sort id_desc rows); [|done].
    symmetry. by apply Permutation_nil_l.
  - by intros ->.
Qed.

Lemma select_latest_is_latest s event_id old :
  result (select_latest_reporting event_id) s = Some old →
  is_latest s event_id old.
Proof.
  unfold result, select_latest_reporting. simpl.
  intros [Hin Hmax]%head_id_desc.
  apply list_elem_of_filter in Hin as [Heq Hin].
  repeat split; [done..|].
  intros r Hr Hev. apply Hmax. by apply list_elem_of_filter.
Qed.

Lemma select_latest_None s event_id :
  result (select_latest_reporting event_id) s = None ↔
  count_rows event_id s = 0%nat.
Proof.
  unfold result, select_latest_reporting, count_rows, rows_of. simpl.
  rewrite head_id_desc_None. by rewrite length_zero_iff_nil.
Qed.

Lemma lookup_event_id s id event :
  lookup_event s id = Some event → Event.id event = id ∧ event ∈ events s.
Proof.
  unfold lookup_event, result, select_event. simpl.
  intros Hin%head_Some_elem_of. by apply list_elem_of_filter in Hin.
Qed.

(** With a unique primary key, the UPDATE replaces one row where it
    stands. *)
Lemma update_at (before after : list Reporting.t) old new :
  NoDup (Reporting.id <$> before ++ old :: after) →
  Reporting.id new = Reporting.id old →
  (λ r, if decide (Reporting.id r = Reporting.id new) then new else r)
    <$> (before ++ old :: after) = before ++ new :: after.
Proof.
  intros Hnd Hid.
  rewrite fmap_app, fmap_cons in Hnd.
  apply NoDup_app in Hnd as (_ & Hbefore & [Hafter _]%NoDup_cons).
  rewrite fmap_app, fmap_cons, decide_True by done.
  f_equal; [|f_equal].
  - rewrite <- (list_fmap_id before) at 2. apply list_fmap_ext.
    intros i r Hr. rewrite decide_False; [done|]. intros Heq.
    apply (Hbefore (Reporting.id r)).
    + apply list_elem_of_fmap. exists r. split; [done|].
      by eapply list_elem_of_lookup_2.
    + rewrite Heq, Hid. left.
  - rewrite <- (list_fmap_id after) at 2. apply list_fmap_ext.
    intros i r Hr. rewrite decide_False; [done|]. intros Heq.
    apply Hafter. apply list_elem_of_fmap. exists r.
    split; [congruence|]. by eapply list_elem_of_lookup_2.
Qed.


End store.

(** ** The handler, branch by branch *)

Section handler.
Implicit Types (s : Store) (reporting_in : ReportingCreate.t)
  (event : Event.t).

Lemma auto_detect_final event s : final (auto_detect event) s = s.
Proof.
  unfold final, auto_detect.
  destruct (Event.start_date event), (Event.start_time event); done.
Qed.

Lemma auto_detect_trace event s :
  trace (auto_detect event) s =
  match Event.start_date event, Event.start_time event with
  | Some d, Some tm =>
      [SelectOverlapping (Event.id event) d;
       SelectSameSlot (Event.id event) d tm]
  | Some d, None => [SelectOverlapping (Event.id event) d]
  | None, _ => []
  end.
Proof.
  unfold trace, auto_detect.
  destruct (Event.start_date event), (Event.start_time event); done.
Qed.

Lemma auto_detect_result event s :
  result (auto_detect event) s = detected_spec event s.
Proof.
  unfold result, auto_detect, detected_spec, first_tagged, same_slot_titles.
  destruct (Event.start_date event) as [d|]; [|done].
  destruct (Event.start_time event) as [tm|]; simpl;
    rewrite foldl_overlap_step, !overlapping_candidates; simpl;
    [|done].
  by rewrite foldl_special_step, same_slot_candidates, special_value_of_spec.
Qed.

Lemma db_add_run (row : Z → Reporting.t) s :
  db_add row s =
  (row (reporting_seq s),
   mkStore (events s)
     (if decide (references_event s (row (reporting_seq s)))
      then reporting s ++ [row (reporting_seq s)] else reporting s)
     (reporting_seq s + 1),
   [if decide (references_event s (row (reporting_seq s)))
    then InsertReporting (Reporting.id (row (reporting_seq s)))
    else IntegrityError]).
Proof. unfold db_add. by case_decide. Qed.

Lemma handler_manual reporting_in s :
  lookup_event s (ReportingCreate.event_id reporting_in) = None →
  let row := manual_row reporting_in (reporting_seq s) in
  create_reporting_entry reporting_in s =
  (row,
   mkStore (events s)
     (if decide (references_event s row)
      then reporting s ++ [row] else reporting s)
     (reporting_seq s + 1),
   [SelectEvent (ReportingCreate.event_id reporting_in);
    if decide (references_event s row)
    then InsertReporting (reporting_seq s) else IntegrityError]).
Proof.
  intros Hev row. subst row.
  unfold lookup_event, result in Hev.
  unfold create_reporting_entry, mbind, Db_bind.
  cbn [select_event fst snd] in *. rewrite Hev, db_add_run. done.
Qed.

Lemma handler_update reporting_in s event existing :
  lookup_event s (ReportingCreate.event_id reporting_in) = Some event →
  result (select_latest_reporting (Event.id event)) s = Some existing →
  let row := annotated reporting_in event (detected_spec event s)
               (Reporting.id existing) (Reporting.event_id existing) in
  create_reporting_entry reporting_in s =
  (row,
   mkStore (events s)
     ((λ r, if decide (Reporting.id r = Reporting.id row) then row else r)
        <$> reporting s)
     (reporting_seq s),
   SelectEvent (ReportingCreate.event_id reporting_in) ::
   trace (auto_detect event) s ++
   [SelectLatestReporting (Event.id event);
    UpdateReporting (Reporting.id existing)]).
Proof.
  intros Hev Hlatest row. subst row.
  rewrite <- auto_detect_result.
  pose proof (auto_detect_final event s) as Hfinal.
  unfold lookup_event, result, final, trace in *.
  unfold create_reporting_entry, mbind, Db_bind.
  simpl in *. rewrite Hev. simpl. rewrite Hfinal, Hlatest. done.
Qed.

Lemma handler_insert reporting_in s event :
  lookup_event s (ReportingCreate.event_id reporting_in) = Some event →
  result (select_latest_reporting (Event.id event)) s = None →
  let row := annotated reporting_in event (detected_spec event s)
               (reporting_seq s) (Event.id event) in
  create_reporting_entry reporting_in s =
  (row,
   mkStore (events s) (reporting s ++ [row]) (reporting_seq s + 1),
   SelectEvent (ReportingCreate.event_id reporting_in) ::
   trace (auto_detect event) s ++
   [SelectLatestReporting (Event.id event);
    InsertReporting (reporting_seq s)]).
Proof.
  intros Hev Hlatest row. subst row.
  rewrite <- auto_detect_result.
  pose proof (auto_detect_final event s) as Hfinal.
  destruct (lookup_event_id _ _ _ Hev) as [_ Hin].
  unfold lookup_event, result, final, trace in *.
  unfold create_reporting_entry, mbind, Db_bind.
  cbn [select_event select_latest_reporting fst snd] in *.
  rewrite Hev. cbn [fst snd]. rewrite Hfinal, Hlatest, db_add_run.
  cbn [fst snd]. rewrite !decide_True; [done|..];
    by apply (list_elem_of_fmap_2 Event.id).
Qed.

Lemma handler_manual_endpoint reporting_in s :
  let row := manual_row reporting_in (reporting_seq s) in
  create_reporting_entry_manual reporting_in s =
  (row,
   mkStore (events s)
     (if decide (references_event s row)
      then reporting s ++ [row] else reporting s)
     (reporting_seq s + 1),
   [if decide (references_event s row)
    then InsertReporting (reporting_seq s) else IntegrityError]).
Proof.
  intros row. unfold create_reporting_entry_manual. by rewrite db_add_run.
Qed.
End handler.

(** ** One call of the handler *)

Section step.
Implicit Types (s : Store) (reporting_in : ReportingCreate.t)
  (event : Event.t) (old : Reporting.t).

(** Two rows that are both the latest of an event have the same id. *)
Lemma is_latest_id s event_id old old' :
  is_latest s event_id old → is_latest s event_id old' →
  Reporting.id old = Reporting.id old'.
Proof.
  intros (Hin & Hev & Hmax) (Hin' & Hev' & Hmax').
  specialize (Hmax old' Hin' Hev'). specialize (Hmax' old Hin Hev). lia.
Qed.



(** The row an update leaves behind is again the latest of its event. *)
Lemma is_latest_replace s s' event_id before old new after :
  reporting s = before ++ old :: after →
  reporting s' = before ++ new :: after →
  Reporting.id new = Reporting.id old →
  Reporting.event_id new = event_id →
  is_latest s event_id old → is_latest s' event_id new.
Proof.
  intros Hs Hs' Hid Hev (_ & _ & Hmax).
  split; [rewrite Hs'; set_solver|]. split; [done|].
  intros r Hr Hrev. rewrite Hs' in Hr.
  apply elem_of_app in Hr as [Hr|[->|Hr]%elem_of_cons]; [|lia|];
    rewrite Hid; apply Hmax; [|done| |done]; rewrite Hs; set_solver.
Qed.

Lemma unique_ids_replace s s' before old new after :
  reporting s = before ++ old :: after →
  reporting s' = before ++ new :: after →
  Reporting.id new = Reporting.id old →
  unique_ids s → unique_ids s'.
Proof.
  unfold unique_ids. intros -> -> Hid.
  by rewrite !fmap_app, !fmap_cons, Hid.
Qed.

Lemma auto_detect_no_write event s :
  filter (λ op, is_write op = true) (trace (auto_detect event) s) = [].
Proof.
  rewrite auto_detect_trace.
  destruct (Event.start_date event), (Event.start_time event); done.
Qed.

(** The row of the event-backed branches, whichever of the two runs. *)
Lemma event_backed_row s reporting_in event :
  lookup_event s (ReportingCreate.event_id reporting_in) = Some event →
  ∃ pk, result (create_reporting_entry reporting_in) s =
        annotated reporting_in event (detected_spec event s)
          pk (Event.id event).
Proof.
  intros Hev.
  destruct (result (select_latest_reporting (Event.id event)) s)
    as [existing|] eqn:Hex; unfold result.
  - rewrite (handler_update _ _ _ _ Hev Hex).
    apply select_latest_is_latest in Hex as (_ & <- & _). by eexists.
  - rewrite (handler_insert _ _ _ Hev Hex). by eexists.
Qed.

Lemma event_backed_trace s reporting_in event :
  lookup_event s (ReportingCreate.event_id reporting_in) = Some event →
  ∃ w, is_write w = true ∧
       trace (create_reporting_entry reporting_in) s =
       SelectEvent (ReportingCreate.event_id reporting_in) ::
       trace (auto_detect event) s ++
       [SelectLatestReporting (Event.id event); w].
Proof.
  intros Hev.
  destruct (result (select_latest_reporting (Event.id event)) s)
    as [existing|] eqn:Hex; unfold trace at 1.
  - rewrite (handler_update _ _ _ _ Hev Hex).
    eexists. split; [|reflexivity]. done.
  - rewrite (handler_insert _ _ _ Hev Hex).
    eexists. split; [|reflexivity]. done.
Qed.

(** A submission for an event that resolves is never refused by the
    database: the row refers to that event. *)
Lemma resolved_never_raises s reporting_in event :
  lookup_event s (ReportingCreate.event_id reporting_in) = Some event →
  raised (create_reporting_entry reporting_in) s = false.
Proof.
  intros Hev. unfold raised. apply bool_decide_eq_false.
  destruct (event_backed_trace s reporting_in event Hev) as (w & Hw & ->).
  rewrite auto_detect_trace.
  destruct (Event.start_date event), (Event.start_time event);
    intros Hin; repeat (apply elem_of_cons in Hin as [Hin|Hin]; [|]);
    try (by apply elem_of_nil in Hin); try done; by subst w.
Qed.

(** On the manual fallback the database refuses the row exactly when
    its event id is the id of no stored event. *)
Lemma manual_raises s reporting_in :
  lookup_event s (ReportingCreate.event_id reporting_in) = None →
  raised (create_reporting_entry reporting_in) s =
  bool_decide
    (¬ references_event s (manual_row reporting_in (reporting_seq s))).
Proof.
  intros Hev. unfold raised, trace. rewrite (handler_manual _ _ Hev).
  cbn [snd]. apply bool_decide_ext.
  case_decide; split; try done.
  - intros Hin. repeat (apply elem_of_cons in Hin as [Hin|Hin]; [done|]).
    by apply elem_of_nil in Hin.
  - intros _. set_solver.
Qed.

(** The row a run returns is a row of the table afterwards. *)
Lemma result_stored s reporting_in :
  raised (create_reporting_entry reporting_in) s = false →
  result (create_reporting_entry reporting_in) s ∈
  reporting (final (create_reporting_entry reporting_in) s).
Proof.
  intros Hrun.
  destruct (lookup_event s (ReportingCreate.event_id reporting_in))
    as [event|] eqn:Hev.
  - clear Hrun. unfold result, final.
    destruct (result (select_latest_reporting (Event.id event)) s)
      as [existing|] eqn:Hex.
    + rewrite (handler_update _ _ _ _ Hev Hex). cbn [fst snd reporting].
      apply select_latest_is_latest in Hex as (Hin & _).
      apply list_elem_of_fmap. exists existing.
      split; [|done]. by rewrite decide_True.
    + rewrite (handler_insert _ _ _ Hev Hex). cbn [fst snd reporting].
      set_solver.
  - rewrite (manual_raises _ _ Hev) in Hrun.
    apply bool_decide_eq_false, dec_stable in Hrun.
    unfold result, final. rewrite (handler_manual _ _ Hev).
    cbn [fst snd reporting]. rewrite decide_True by done. set_solver.
Qed.

Lemma str_or_default (x : option string) :
  str_or x EmptyString = default EmptyString x.
Proof. destruct x as [v|]; simpl; [|done]. by case_decide. Qed.

(** A body with both required fields reaches the handler; any other is
    refused before the handler runs. *)
Lemma endpoint_valid (handler : ReportingCreate.t → Db Reporting.t)
    (b : Body.t) reporting_in s :
  validate b = Some reporting_in →
  endpoint handler b s =
  (if raised (handler reporting_in) s then ServerError
   else Ok (result (handler reporting_in) s),
   final (handler reporting_in) s,
   trace (handler reporting_in) s).
Proof. intros Hv. unfold endpoint. by rewrite Hv. Qed.

Lemma endpoint_invalid (handler : ReportingCreate.t → Db Reporting.t)
    (b : Body.t) s :
  validate b = None → endpoint handler b s = (Unprocessable, s, []).
Proof. intros Hv. unfold endpoint. by rewrite Hv. Qed.

Lemma validate_Some (b : Body.t) (event_id visitor : Z) :
  Body.event_id b = Some event_id → Body.visitor b = Some visitor →
  validate b =
  Some (ReportingCreate.mk event_id visitor
          (Body.vacation b) (Body.holiday b) (Body.special b)
          (Body.event_title b) (Body.event_date b)
          (Body.event_start_time b)).
Proof. intros He Hv. unfold validate. by rewrite He, Hv. Qed.

Lemma validate_None (b : Body.t) :
  Body.event_id b = None ∨ Body.visitor b = None → validate b = None.
Proof.
  unfold validate. intros [->| ->]; [done|]. by destruct (Body.event_id b).
Qed.

(** Rows read back through GET /reporting/by-event. *)
Lemma elem_of_list_reporting_for_event s r :
  r ∈ reporting s →
  r ∈ list_reporting_for_event (Reporting.event_id r) s.
Proof.
  intros Hr. unfold list_reporting_for_event.
  rewrite merge_sort_Permutation. by apply list_elem_of_filter.
Qed.

Lemma visitor_stored s reporting_in :
  Reporting.visitor (result (create_reporting_entry reporting_in) s) =
  Some (ReportingCreate.visitor reporting_in).
Proof.
  destruct (lookup_event s (ReportingCreate.event_id reporting_in))
    as [event|] eqn:Hev.
  - destruct (event_backed_row s reporting_in event Hev) as [pk ->]. done.
  - unfold result. by rewrite (handler_manual _ _ Hev).
Qed.

End step.

(** ** Properties of POST /reporting *)





(** C8, at the failing input.  A submission for an event id that no
    event has takes the manual fallback; the row it builds refers to no
    event, the commit is refused, and the call writes no reporting row
    at all.  The events are as they were. *)
Theorem fallback_for_unknown_event_writes_no_row :
  let reporting_in := req 4242 5 in
  lookup_event store0 4242 = None ∧
  raised (create_reporting_entry reporting_in) store0 = true ∧
  filter (λ op, is_write op = true)
    (trace (create_reporting_entry reporting_in) store0) = [] ∧
  reporting (final (create_reporting_entry reporting_in) store0) =
    reporting store0 ∧
  events (final (create_reporting_entry reporting_in) store0) =
    events store0.
Proof. vm_compute. repeat split; reflexivity. Qed.

(** C4, at the failing input.  A submission for an event id that no
    event has is answered with a server error: the log holds the event
    lookup and the refused insert, no row is stored, and the number of
    rows with the submitted event id is what it was. *)
Theorem unresolved_submission_is_refused :
  let b := body_of (req 4242 5) in
  result (submit_reporting b) store0 = ServerError ∧
  trace (submit_reporting b) store0 = [SelectEvent 4242; IntegrityError] ∧
  reporting (final (submit_reporting b) store0) = reporting store0 ∧
  count_rows 4242 (final (submit_reporting b) store0) =
    count_rows 4242 store0.
Proof. vm_compute. repeat split; reflexivity. Qed.

(** C2.  For an event with a start date, the vacation annotation of the
    entry is the title of the first other event, in the order of the
    table, whose start date is on or before that date, whose end date is
    absent or on or after it, and which carries the category "Ferien";
    the holiday annotation likewise with "Feiertag".  A title that has
    been found is kept against every later candidate, and it replaces the
    value the caller supplied; the caller's value is used only when no
    event matches. *)
Theorem vacation_holiday_first_match
    (s : Store) (reporting_in : ReportingCreate.t) (event : Event.t)
    (d : date) :
  lookup_event s (ReportingCreate.event_id reporting_in) = Some event →
  Event.start_date event = Some d →
  let r := result (create_reporting_entry reporting_in) s in
  Reporting.vacation r =
    match first_tagged "Ferien" event d s with
    | Some v => Some (Event.title v)
    | None => ReportingCreate.vacation reporting_in
    end ∧
  Reporting.holiday r =
    match first_tagged "Feiertag" event d s with
    | Some v => Some (Event.title v)
    | None => ReportingCreate.holiday reporting_in
    end ∧
  (∀ t h other, (overlap_step d (Some t, h) other).1 = Some t) ∧
  (∀ v t other, (overlap_step d (v, Some t) other).2 = Some t).
Proof.
  intros Hev Hdate r.
  destruct (event_backed_row s reporting_in event Hev) as [pk Hr].
  subst r. rewrite Hr. unfold detected_spec. rewrite Hdate. simpl.
  split; [by destruct (first_tagged "Ferien" event d s)|].
  split; [by destruct (first_tagged "Feiertag" event d s)|].
  split.
  - apply overlap_step_keeps_vacation.
  - apply overlap_step_keeps_holiday.
Qed.

Lemma vacation_holiday_first_match_witness :
  ReportingCreate.vacation (req 1 5) = Some "x" ∧
  Reporting.vacation (result (create_reporting_entry (req 1 5)) store0) =
  Some "Herbstferien".
Proof.
  split; [reflexivity|].
  apply (vacation_holiday_first_match store0 (req 1 5) ev_service 100);
    reflexivity.
Defined.

(** C9.  One candidate that carries both "Ferien" and "Feiertag" supplies
    both annotations: when it is the first match of each kind, the
    vacation and the holiday of the entry are both its title. *)
Theorem one_candidate_supplies_both_annotations
    (s : Store) (reporting_in : ReportingCreate.t) (event v : Event.t)
    (d : date) :
  lookup_event s (ReportingCreate.event_id reporting_in) = Some event →
  Event.start_date event = Some d →
  first_tagged "Ferien" event d s = Some v →
  first_tagged "Feiertag" event d s = Some v →
  let r := result (create_reporting_entry reporting_in) s in
  "Ferien" ∈ cat_names v ∧ "Feiertag" ∈ cat_names v ∧
  Reporting.vacation r = Some (Event.title v) ∧
  Reporting.holiday r = Some (Event.title v).
Proof.
  intros Hev Hdate Hvac Hhol r.
  destruct (event_backed_row s reporting_in event Hev) as [pk Hr].
  subst r. rewrite Hr. unfold detected_spec. rewrite Hdate, Hvac, Hhol.
  apply head_Some_elem_of, list_elem_of_filter in Hvac as [(_ & _ & ?) _].
  apply head_Some_elem_of, list_elem_of_filter in Hhol as [(_ & _ & ?) _].
  done.
Qed.

Lemma one_candidate_supplies_both_annotations_witness :
  let r := result (create_reporting_entry (req 1 5)) store0 in
  Reporting.vacation r = Some "Herbstferien" ∧
  Reporting.holiday r = Some "Herbstferien".
Proof.
  intros r.
  apply (one_candidate_supplies_both_annotations
           store0 (req 1 5) ev_service ev_ferien 100); reflexivity.
Defined.

(** C3.  For an event with a start date and a start time, the special
    value the detection computes is made of the non-empty titles of the
    other events with that start date and that start time that carry
    "Lobpreisabend" or "Special": absent when there is none, otherwise
    these titles, each kept at its first occurrence only, joined with
    ", ".  It is never the empty string.  The entry carries it, or the
    caller's value when it is absent. *)
Theorem special_from_same_slot_titles
    (s : Store) (reporting_in : ReportingCreate.t) (event : Event.t)
    (d : date) (tm : time) :
  lookup_event s (ReportingCreate.event_id reporting_in) = Some event →
  Event.start_date event = Some d →
  Event.start_time event = Some tm →
  let titles := same_slot_titles event d tm s in
  let special_value := (result (auto_detect event) s).2 in
  let r := result (create_reporting_entry reporting_in) s in
  special_value =
    match titles with
    | [] => None
    | _ :: _ => Some (join ", " (dedup_first titles))
    end ∧
  special_value ≠ Some EmptyString ∧
  Reporting.special r =
    match special_value with
    | Some joined => Some joined
    | None => ReportingCreate.special reporting_in
    end.
Proof.
  intros Hev Hdate Htime titles special_value r.
  assert (special_value = special_spec titles) as Hspec.
  { subst special_value titles. rewrite auto_detect_result.
    unfold detected_spec. by rewrite Hdate, Htime. }
  split; [|split].
  - rewrite Hspec. unfold special_spec. by destruct titles.
  - rewrite Hspec. apply special_spec_not_empty.
    subst titles. unfold same_slot_titles. apply Forall_fmap, Forall_forall.
    intros o Ho. apply list_elem_of_filter in Ho as [Ho _]. apply Ho.
  - destruct (event_backed_row s reporting_in event Hev) as [pk Hr].
    subst r. rewrite Hr. simpl. rewrite <- auto_detect_result.
    fold special_value. by destruct special_value.
Qed.

Lemma special_from_same_slot_titles_witness :
  same_slot_titles ev_service 100 36000 store0 =
    ["Jugendgottesdienst"; "Jugendgottesdienst"] ∧
  (result (auto_detect ev_service) store0).2 = Some "Jugendgottesdienst".
Proof.
  split; [reflexivity|].
  apply (special_from_same_slot_titles store0 (req 1 5) ev_service 100 36000);
    reflexivity.
Defined.

(** C6.  For a resolved event without a start date the handler issues
    neither of the two detection queries, the detection yields nothing,
    and the vacation, holiday and special of the entry are the values the
    caller supplied, absent ones included. *)
Theorem undated_event_keeps_caller_annotations
    (s : Store) (reporting_in : ReportingCreate.t) (event : Event.t) :
  lookup_event s (ReportingCreate.event_id reporting_in) = Some event →
  Event.start_date event = None →
  let r := result (create_reporting_entry reporting_in) s in
  result (auto_detect event) s = (None, None, None) ∧
  filter (λ op, is_detection op = true)
    (trace (create_reporting_entry reporting_in) s) = [] ∧
  Reporting.vacation r = ReportingCreate.vacation reporting_in ∧
  Reporting.holiday r = ReportingCreate.holiday reporting_in ∧
  Reporting.special r = ReportingCreate.special reporting_in.
Proof.
  intros Hev Hdate r.
  assert (detected_spec event s = (None, None, None)) as Hdet
    by (unfold detected_spec; by rewrite Hdate).
  split; [by rewrite auto_detect_result|]. split.
  - destruct (event_backed_trace s reporting_in event Hev)
      as (w & Hw & ->).
    rewrite auto_detect_trace, Hdate. simpl.
    rewrite filter_cons_False by done.
    rewrite filter_cons_False by done.
    rewrite filter_cons_False; [done|]. by destruct w.
  - destruct (event_backed_row s reporting_in event Hev) as [pk Hr].
    subst r. by rewrite Hr, Hdet.
Qed.

Lemma undated_event_keeps_caller_annotations_witness :
  Reporting.vacation (result (create_reporting_entry (req 5 9)) store0) =
  Some "x".
Proof.
  apply (undated_event_keeps_caller_annotations store0 (req 5 9) ev_undated);
    reflexivity.
Defined.

(** C5, as the code has it.  The visitor of a submission is a required
    integer: a body without it is refused and nothing is stored.  For an
    event id that resolves, every visitor within the range of the
    column that is submitted, 0 included, is the visitor of the
    resulting entry and of the row read back for its event, and so
    differs from the unset state. *)
Theorem visitor_required_and_read_back
    (b : Body.t) (s : Store) (event_id : Z) (event : Event.t) :
  Body.event_id b = Some event_id →
  lookup_event s event_id = Some event →
  match Body.visitor b with
  | Some v =>
      int4 v →
      ∃ r, result (submit_reporting b) s = Ok r ∧
           Reporting.visitor r = Some v ∧
           Reporting.visitor r ≠ None ∧
           r ∈ list_reporting_for_event (Reporting.event_id r)
                 (final (submit_reporting b) s)
  | None =>
      result (submit_reporting b) s = Unprocessable ∧
      final (submit_reporting b) s = s
  end.
Proof.
  intros He Hev. destruct (Body.visitor b) as [v|] eqn:Hv.
  - intros _. unfold result at 1, final at 1, submit_reporting.
    rewrite (endpoint_valid _ _ _ _ (validate_Some b event_id v He Hv)).
    cbn [fst snd].
    rewrite (resolved_never_raises s _ event) by done.
    eexists. split; [done|]. rewrite visitor_stored.
    split; [done|]. split; [done|].
    apply elem_of_list_reporting_for_event, result_stored.
    by apply (resolved_never_raises s _ event).
  - unfold result, final, submit_reporting.
    rewrite endpoint_invalid; [done|]. apply validate_None. by right.
Qed.

Lemma visitor_required_and_read_back_witness :
  ∃ r, result (submit_reporting (body_of (req 1 0))) store0 = Ok r ∧
       Reporting.visitor r = Some 0.
Proof.
  destruct (visitor_required_and_read_back (body_of (req 1 0)) store0 1
              ev_service eq_refl eq_refl) as (r & Hr & Hv & _).
  - unfold int4. simpl. lia.
  - exists r. split; [exact Hr | exact Hv].
Defined.

(** C5, as stated, fails: a submission that leaves the visitor out is
    refused, so no entry with an unset visitor results from it. *)
Lemma visitor_absent_is_refused :
  let b := Body.mk (Some 1) None None None None None None None in
  result (submit_reporting b) store0 = Unprocessable ∧
  final (submit_reporting b) store0 = store0 ∧
  ¬ ∃ r, result (submit_reporting b) store0 = Ok r ∧
         Reporting.visitor r = None.
Proof.
  intros b. split; [reflexivity|]. split; [reflexivity|].
  intros (r & Hr & _). discriminate Hr.
Qed.

(** ** Properties of POST /reporting/manual *)

(** C7, at the failing input.  A body that leaves out the event id (and
    the title) is refused by the schema before the handler and its
    [event_id or 99] run: no entry results and nothing is stored. *)
Theorem manual_without_event_id_is_refused :
  let b := Body.mk None (Some 12) None None None None None None in
  result (submit_reporting_manual b) store0 = Unprocessable ∧
  final (submit_reporting_manual b) store0 = store0 ∧
  trace (submit_reporting_manual b) store0 = [] ∧
  ¬ ∃ r, result (submit_reporting_manual b) store0 = Ok r ∧
         Reporting.event_id r = 99.
Proof.
  intros b. repeat split; try reflexivity.
  intros (r & Hr & _). discriminate Hr.
Qed.



(** ** The reporting table under all its handlers *)

Section crud.
Implicit Types (s : Store) (r old new : Reporting.t)
  (before after : list Reporting.t).

Lemma filter_none {A} (P : A → Prop) `{!∀ x, Decision (P x)} (k : list A) :
  (∀ x, x ∈ k → ¬ P x) → filter P k = [].
Proof.
  induction k as [|x k IH]; intros Hk; [done|].
  rewrite filter_cons_False by (apply Hk; left).
  apply IH. intros y Hy. apply Hk. by right.
Qed.

Lemma ids_apart before old after r :
  NoDup (Reporting.id <$> before ++ old :: after) →
  r ∈ before ++ after → Reporting.id r ≠ Reporting.id old.
Proof.
  rewrite fmap_app, fmap_cons.
  intros (_ & Hbefore & [Hafter _]%NoDup_cons)%NoDup_app Hr Heq.
  apply elem_of_app in Hr as [Hr|Hr].
  - apply (Hbefore (Reporting.id r)); [by apply list_elem_of_fmap_2|].
    rewrite Heq. left.
  - apply Hafter. rewrite <- Heq. by apply list_elem_of_fmap_2.
Qed.

(** Two stored rows with the same id are the same row. *)
Lemma unique_ids_eq s r r' :
  unique_ids s → r ∈ reporting s → r' ∈ reporting s →
  Reporting.id r = Reporting.id r' → r = r'.
Proof.
  unfold unique_ids.
  intros Hnd (before & after & Hs)%list_elem_of_split Hr' Hid.
  rewrite Hs in Hnd, Hr'.
  apply elem_of_app in Hr' as [Hr'|[->|Hr']%elem_of_cons]; [|done|];
    exfalso; apply (ids_apart before r after r' Hnd); set_solver.
Qed.

Lemma select_reporting_at s before old after :
  unique_ids s → reporting s = before ++ old :: after →
  select_reporting s (Reporting.id old) = Some old.
Proof.
  unfold unique_ids, select_reporting. intros Hnd Hs. rewrite Hs in *.
  rewrite filter_app, filter_cons_True by done.
  rewrite (filter_none _ before); [done|].
  intros r Hr. apply (ids_apart before old after r Hnd). set_solver.
Qed.

Lemma select_reporting_Some s reporting_id r :
  select_reporting s reporting_id = Some r →
  r ∈ reporting s ∧ Reporting.id r = reporting_id.
Proof.
  unfold select_reporting. intros Hr%head_Some_elem_of.
  by apply list_elem_of_filter in Hr as [? ?].
Qed.

Lemma select_reporting_None s reporting_id :
  select_reporting s reporting_id = None ↔
  ∀ r, r ∈ reporting s → Reporting.id r ≠ reporting_id.
Proof.
  unfold select_reporting. rewrite head_None. split.
  - intros Hnil r Hr Hid. by apply (filter_nil_not_elem_of _ _ r Hnil).
  - intros Hall. by apply filter_none.
Qed.

Lemma delete_at before old after :
  NoDup (Reporting.id <$> before ++ old :: after) →
  filter (λ r, Reporting.id r ≠ Reporting.id old) (before ++ old :: after) =
  before ++ after.
Proof.
  intros Hnd. rewrite filter_app, filter_cons_False by tauto.
  f_equal; apply filter_all; intros r Hr;
    apply (ids_apart before old after r Hnd); set_solver.
Qed.

Lemma apply_update_id reporting_in r :
  Reporting.id (apply_update reporting_in r) = Reporting.id r ∧
  Reporting.event_id (apply_update reporting_in r) = Reporting.event_id r.
Proof.
  destruct reporting_in as [[?|] [?|] [?|] [?|] [?|] [?|] [?|]]; done.
Qed.

Lemma apply_update_twice reporting_in r :
  apply_update reporting_in (apply_update reporting_in r) =
  apply_update reporting_in r.
Proof.
  destruct reporting_in as [[?|] [?|] [?|] [?|] [?|] [?|] [?|]]; done.
Qed.

Lemma store_ok_append s s' r :
  store_ok s →
  reporting s' = reporting s ++ [r] →
  Reporting.id r = reporting_seq s →
  reporting_seq s' = reporting_seq s + 1 →
  store_ok s'.
Proof.
  unfold store_ok, unique_ids, ids_below_seq.
  intros [Hnd Hbelow] -> Hid ->. split.
  - rewrite fmap_app. apply NoDup_app. split; [done|]. split.
    + intros id (r' & -> & Hr')%list_elem_of_fmap Hin.
      apply list_elem_of_fmap in Hin as (r'' & Heq & ->%list_elem_of_singleton).
      apply (proj1 (Forall_forall _ _) Hbelow) in Hr'. lia.
    + apply NoDup_singleton.
  - apply Forall_app. split.
    + eapply Forall_impl; [done|]. intros r' ?. simpl in *. lia.
    + apply Forall_singleton. lia.
Qed.

Lemma store_ok_replace s s' before old new after :
  store_ok s →
  reporting s = before ++ old :: after →
  reporting s' = before ++ new :: after →
  Reporting.id new = Reporting.id old →
  reporting_seq s' = reporting_seq s →
  store_ok s'.
Proof.
  intros [Hnd Hbelow] Hs Hs' Hid Hseq. split.
  - by apply (unique_ids_replace s s' before old new after).
  - unfold ids_below_seq in *. rewrite Hs in Hbelow. rewrite Hs', Hseq.
    rewrite Forall_app, Forall_cons in *. by rewrite Hid.
Qed.

Lemma store_ok_remove s s' before old after :
  store_ok s →
  reporting s = before ++ old :: after →
  reporting s' = before ++ after →
  reporting_seq s' = reporting_seq s →
  store_ok s'.
Proof.
  unfold store_ok, unique_ids, ids_below_seq.
  intros [Hnd Hbelow] Hs -> ->. rewrite Hs in *. split.
  - rewrite fmap_app, fmap_cons in Hnd. rewrite fmap_app.
    apply NoDup_app in Hnd as (Hb & Hdisj & [_ Ha]%NoDup_cons).
    apply NoDup_app. split; [done|]. split; [|done].
    intros id Hid Hin. apply (Hdisj id Hid). by right.
  - rewrite Forall_app, Forall_cons in Hbelow. rewrite Forall_app. tauto.
Qed.

(** What one call of POST /reporting does to a store whose ids are
    unique and below the sequence: it appends a row with the next id of
    the sequence, or it replaces the latest row of a resolved event, or,
    on the manual fallback, its row is refused and only the sequence
    moves. *)
Lemma create_step s (reporting_in : ReportingCreate.t) :
  store_ok s →
  let r := result (create_reporting_entry reporting_in) s in
  let s' := final (create_reporting_entry reporting_in) s in
  events s' = events s ∧
  ((reporting s' = reporting s ++ [r] ∧
    Reporting.id r = reporting_seq s ∧
    reporting_seq s' = reporting_seq s + 1 ∧
    (lookup_event s (ReportingCreate.event_id reporting_in) = None ∨
     Reporting.event_id r = ReportingCreate.event_id reporting_in ∧
     count_rows (ReportingCreate.event_id reporting_in) s = 0%nat)) ∨
   (∃ before old after,
      is_Some (lookup_event s (ReportingCreate.event_id reporting_in)) ∧
      is_latest s (ReportingCreate.event_id reporting_in) old ∧
      reporting s = before ++ old :: after ∧
      reporting s' = before ++ r :: after ∧
      Reporting.id r = Reporting.id old ∧
      Reporting.event_id r = Reporting.event_id old ∧
      reporting_seq s' = reporting_seq s) ∨
   (raised (create_reporting_entry reporting_in) s = true ∧
    lookup_event s (ReportingCreate.event_id reporting_in) = None ∧
    reporting s' = reporting s ∧
    reporting_seq s' = reporting_seq s + 1)).
Proof.
  intros [Hnd Hbelow] r s'. subst r s'. unfold result, final.
  destruct (lookup_event s (ReportingCreate.event_id reporting_in))
    as [event|] eqn:Hev.
  - destruct (lookup_event_id _ _ _ Hev) as [Hevid _].
    destruct (result (select_latest_reporting (Event.id event)) s)
      as [existing|] eqn:Hex.
    + pose proof (select_latest_is_latest _ _ _ Hex) as Hold.
      pose proof Hold as (Hin & Hoev & _).
      apply list_elem_of_split in Hin as (before & after & Hrows).
      rewrite (handler_update _ _ _ _ Hev Hex).
      cbn [fst snd reporting events reporting_seq].
      split; [done|]. right. left. exists before, existing, after.
      rewrite <- Hevid. split; [done|]. split; [done|]. split; [done|].
      split; [|done]. rewrite Hrows. apply update_at; [|done].
      unfold unique_ids in Hnd. by rewrite Hrows in Hnd.
    + rewrite (handler_insert _ _ _ Hev Hex).
      cbn [fst snd reporting events reporting_seq].
      split; [done|]. left. repeat split; try done. right.
      split; [done|]. rewrite <- Hevid. by apply select_latest_None.
  - pose proof (manual_raises _ _ Hev) as Hraised.
    rewrite (handler_manual _ _ Hev).
    cbn [fst snd reporting events reporting_seq].
    split; [done|]. case_decide as Hfk.
    + left. repeat split; try done. by left.
    + right. right. rewrite Hraised. split; [|done].
      by apply bool_decide_eq_true_2.
Qed.

Lemma store_ok_skip s s' :
  store_ok s →
  reporting s' = reporting s →
  reporting_seq s' = reporting_seq s + 1 →
  store_ok s'.
Proof.
  unfold store_ok, unique_ids, ids_below_seq.
  intros [Hnd Hbelow] -> ->. split; [done|].
  eapply Forall_impl; [exact Hbelow|]. intros r' ?. simpl in *. lia.
Qed.

Lemma create_step_ok s (reporting_in : ReportingCreate.t) :
  store_ok s → store_ok (final (create_reporting_entry reporting_in) s).
Proof.
  intros Hok.
  destruct (create_step s reporting_in Hok)
    as (_ & [(Hs' & Hid & Hseq & _)|
             [(before & old & after & _ & _ & Hs & Hs' & Hid & _ & Hseq)|
              (_ & _ & Hs' & Hseq)]]).
  - by eapply store_ok_append.
  - by eapply store_ok_replace.
  - by eapply store_ok_skip.
Qed.

(** With unique ids the latest row of an event heads its listing. *)
Lemma latest_heads_listing s event_id old :
  unique_ids s → is_latest s event_id old →
  head (list_reporting_for_event event_id s) = Some old.
Proof.
  intros Hnd Hold.
  destruct (head (list_reporting_for_event event_id s)) as [r|] eqn:Hhead.
  - assert (is_latest s event_id r) as Hr
      by by apply select_latest_is_latest.
    f_equal. apply (unique_ids_eq s); [done|apply Hr|apply Hold|].
    by apply (is_latest_id s event_id).
  - apply head_id_desc_None in Hhead. destruct Hold as (Hin & Hev & _).
    exfalso. eapply (filter_nil_not_elem_of _ _ old Hhead); done.
Qed.
End crud.

(** ** Further properties of the reporting handlers *)

(** X1.  Both POST handlers keep the primary key of [reporting] unique
    and below the sequence the next key is drawn from, whether the row
    they add is stored or refused by the foreign key on [event_id]. *)
Theorem post_handlers_keep_store_ok
    (s : Store) (reporting_in : ReportingCreate.t) :
  store_ok s →
  store_ok (final (create_reporting_entry reporting_in) s) ∧
  store_ok (final (create_reporting_entry_manual reporting_in) s).
Proof.
  intros Hok. split; [by apply create_step_ok|].
  unfold final. rewrite handler_manual_endpoint. cbn [fst snd].
  case_decide.
  - by apply (store_ok_append s _
                (manual_row reporting_in (reporting_seq s))).
  - by apply (store_ok_skip s).
Qed.

Lemma store0_ok : store_ok store0.
Proof.
  split.
  - apply (bool_decide_unpack _). vm_compute. exact I.
  - apply (bool_decide_unpack _). vm_compute. exact I.
Defined.

Lemma post_handlers_keep_store_ok_witness :
  store_ok (final (create_reporting_entry (req 1 5)) store0).
Proof.
  apply (post_handlers_keep_store_ok store0 (req 1 5) store0_ok).
Defined.

(** X2.  PUT and DELETE on a reporting id keep the primary key unique and
    below the sequence, whether the id exists or not. *)
Theorem put_delete_keep_store_ok
    (s : Store) (reporting_id : Z) (reporting_in : ReportingUpdate.t) :
  store_ok s →
  store_ok (update_reporting_entry reporting_id reporting_in s).2 ∧
  store_ok (delete_reporting_entry reporting_id s).2.
Proof.
  intros Hok. unfold update_reporting_entry, delete_reporting_entry.
  destruct (select_reporting s reporting_id) as [old|] eqn:Hsel; [|done].
  apply select_reporting_Some in Hsel as [Hin _].
  apply list_elem_of_split in Hin as (before & after & Hs).
  pose proof Hok as [Hnd _]. unfold unique_ids in Hnd. rewrite Hs in Hnd.
  destruct (apply_update_id reporting_in old) as [Hid _].
  split; simpl.
  - apply (store_ok_replace s _ before old (apply_update reporting_in old)
             after); try done.
    unfold final, db_update. simpl. rewrite Hs. by apply update_at.
  - apply (store_ok_remove s _ before old after); try done.
    simpl. rewrite Hs. by apply delete_at.
Qed.

Lemma put_delete_keep_store_ok_witness :
  store_ok (delete_reporting_entry 7 store0).2.
Proof. apply (put_delete_keep_store_ok store0 7 patch0 store0_ok). Defined.

(** X3.  After a submission to POST /reporting that the database
    accepted (the commit did not raise on the foreign key of [event_id]),
    the listing of the rows of the returned row's event, newest first,
    starts with the returned row. *)
Theorem submitted_row_heads_listing
    (s : Store) (reporting_in : ReportingCreate.t) :
  store_ok s →
  raised (create_reporting_entry reporting_in) s = false →
  let r := result (create_reporting_entry reporting_in) s in
  let s' := final (create_reporting_entry reporting_in) s in
  head (list_reporting_for_event (Reporting.event_id r) s') = Some r.
Proof.
  intros Hok Hcommit r s'.
  pose proof (create_step_ok s reporting_in Hok) as [Hnd' _].
  apply latest_heads_listing; [done|].
  destruct (create_step s reporting_in Hok)
    as (_ & [(Hs' & Hid & Hseq & _)|
             [(before & old & after & _ & Hold & Hs & Hs' & Hid & Hev & _)|
              (Hraised & _)]]);
    [| |congruence];
    fold r s' in Hs', Hid.
  - split; [rewrite Hs'; set_solver|]. split; [done|].
    intros r' Hr' _. rewrite Hs' in Hr'.
    apply elem_of_app in Hr' as [Hr'|Hr'];
      [|apply list_elem_of_singleton in Hr' as ->; lia].
    destruct Hok as [_ Hbelow].
    apply (proj1 (Forall_forall _ _) Hbelow) in Hr'. lia.
  - fold r in Hev. rewrite Hev.
    destruct Hold as (Hin & Hoev & Hmax). rewrite Hoev.
    apply (is_latest_replace s s' _ before old r after); try done.
    by rewrite Hev.
Qed.

Lemma submitted_row_heads_listing_witness :
  let r := result (create_reporting_entry (req 1 5)) store0 in
  let s' := final (create_reporting_entry (req 1 5)) store0 in
  head (list_reporting_for_event 1 s') = Some r.
Proof.
  intros r s'.
  apply (submitted_row_heads_listing store0 (req 1 5) store0_ok).
  reflexivity.
Defined.

Lemma strictly_descending (l : list Reporting.t) :
  StronglySorted id_desc l → NoDup (Reporting.id <$> l) →
  StronglySorted (λ a b, Reporting.id b < Reporting.id a) l.
Proof.
  induction 1 as [|a l Hl IH Hall]; intros Hnd; [constructor|].
  rewrite fmap_cons in Hnd. apply NoDup_cons in Hnd as [Hnotin Hnd].
  constructor; [by apply IH|].
  apply Forall_forall. intros b Hb.
  apply (proj1 (Forall_forall _ _) Hall) in Hb as Hle. unfold id_desc in Hle.
  assert (Reporting.id b ≠ Reporting.id a)
    by (intros Heq; apply Hnotin; rewrite <- Heq;
        by apply list_elem_of_fmap_2).
  lia.
Qed.

(** X4.  GET /reporting/by-event returns the rows of the event, all of
    them and no other, in strictly descending order of id. *)
Theorem listing_is_rows_of_event_newest_first (s : Store) (event_id : Z) :
  unique_ids s →
  let listing := list_reporting_for_event event_id s in
  (∀ r, r ∈ listing ↔ r ∈ reporting s ∧ Reporting.event_id r = event_id) ∧
  length listing = count_rows event_id s ∧
  StronglySorted (λ a b, Reporting.id b < Reporting.id a) listing.
Proof.
  intros Hnd listing. subst listing. unfold list_reporting_for_event.
  pose proof (merge_sort_Permutation id_desc
                (filter (λ r, Reporting.event_id r = event_id)
                   (reporting s))) as Hperm.
  split; [|split].
  - intros r. rewrite Hperm, list_elem_of_filter. tauto.
  - by rewrite Hperm.
  - apply strictly_descending; [apply StronglySorted_merge_sort; apply _|].
    rewrite Hperm. apply (sublist_NoDup _ (Reporting.id <$> reporting s)); [exact Hnd|].
    apply fmap_sublist, sublist_filter.
Qed.

Lemma listing_is_rows_of_event_newest_first_witness :
  Reporting.id <$> list_reporting_for_event 1 store0 = [7; 3] ∧
  length (list_reporting_for_event 1 store0) = count_rows 1 store0.
Proof.
  split; [reflexivity|].
  apply (listing_is_rows_of_event_newest_first store0 1 (proj1 store0_ok)).
Defined.

(** X5.  PUT and DELETE on an id that no row has answer 404 ("Reporting
    entry not found") and leave the store as it was. *)
Theorem unknown_reporting_id_is_not_found
    (s : Store) (reporting_id : Z) (reporting_in : ReportingUpdate.t) :
  (∀ r, r ∈ reporting s → Reporting.id r ≠ reporting_id) →
  update_reporting_entry reporting_id reporting_in s =
    (Raise 404 "Reporting entry not found", s) ∧
  delete_reporting_entry reporting_id s =
    (Raise 404 "Reporting entry not found", s).
Proof.
  intros Hnone%select_reporting_None.
  unfold update_reporting_entry, delete_reporting_entry.
  by rewrite Hnone.
Qed.

Lemma unknown_reporting_id_is_not_found_witness :
  (delete_reporting_entry 4 store0).2 = store0.
Proof.
  assert (∀ r, r ∈ reporting store0 → Reporting.id r ≠ 4) as Hnone.
  { apply (proj1 (Forall_forall (λ r, Reporting.id r ≠ 4)
                       (reporting store0))).
    apply (bool_decide_unpack _). vm_compute. exact I. }
  destruct (unknown_reporting_id_is_not_found store0 4 patch0 Hnone)
    as [_ Hdel].
  rewrite Hdel. reflexivity.
Defined.





Lemma db_update_same (s : Store) (before after : list Reporting.t)
    (row : Reporting.t) :
  unique_ids s → reporting s = before ++ row :: after →
  final (db_update row) s = s.
Proof.
  unfold unique_ids, final, db_update. destruct s as [evs rows seq].
  simpl. intros Hnd ->. f_equal. by apply update_at.
Qed.

(** X8.  PUT is idempotent: sending the same update a second time gives
    the same response and leaves the store as the first one left it. *)
Theorem update_is_idempotent
    (s : Store) (reporting_id : Z) (reporting_in : ReportingUpdate.t) :
  unique_ids s →
  let s' := (update_reporting_entry reporting_id reporting_in s).2 in
  update_reporting_entry reporting_id reporting_in s' =
  update_reporting_entry reporting_id reporting_in s.
Proof.
  intros Hnd s'. subst s'. unfold update_reporting_entry at 2 3.
  destruct (select_reporting s reporting_id) as [old|] eqn:Hsel.
  - apply select_reporting_Some in Hsel as [Hin <-].
    apply list_elem_of_split in Hin as (before & after & Hs).
    destruct (apply_update_id reporting_in old) as [Hid _].
    pose proof Hnd as Hnd0. unfold unique_ids in Hnd0. rewrite Hs in Hnd0.
    cbn [snd].
    set (s1 := final (db_update (apply_update reporting_in old)) s).
    assert (reporting s1 =
            before ++ apply_update reporting_in old :: after) as Hs1.
    { subst s1. unfold final, db_update. simpl. rewrite Hs.
      by apply update_at. }
    pose proof (unique_ids_replace s s1 before old _ after Hs Hs1 Hid Hnd)
      as Hnd1.
    unfold update_reporting_entry. rewrite <- Hid.
    rewrite (select_reporting_at s1 before _ after Hnd1 Hs1).
    rewrite apply_update_twice. f_equal.
    by apply (db_update_same s1 before after).
  - cbn [snd]. unfold update_reporting_entry. by rewrite Hsel.
Qed.

Lemma update_is_idempotent_witness :
  update_reporting_entry 7 patch0
    (update_reporting_entry 7 patch0 store0).2 =
  update_reporting_entry 7 patch0 store0.
Proof. apply (update_is_idempotent store0 7 patch0 (proj1 store0_ok)). Defined.

Lemma delete_step (s : Store) (before after : list Reporting.t)
    (old : Reporting.t) :
  unique_ids s →
  reporting s = before ++ old :: after →
  delete_reporting_entry (Reporting.id old) s =
    (Return (), db_delete old s) ∧
  reporting (db_delete old s) = before ++ after.
Proof.
  intros Hnd Hs. unfold delete_reporting_entry.
  rewrite (select_reporting_at s before old after Hnd Hs).
  split; [done|]. unfold unique_ids in Hnd. rewrite Hs in Hnd.
  unfold db_delete. simpl. rewrite Hs. by apply delete_at.
Qed.

(** X9.  DELETE on the id of a stored row removes that row and no other.
    Afterwards the id is unknown, and the event of the row has one row
    less. *)
Theorem delete_removes_one_row
    (s : Store) (before after : list Reporting.t) (old : Reporting.t) :
  unique_ids s →
  reporting s = before ++ old :: after →
  let s' := (delete_reporting_entry (Reporting.id old) s).2 in
  (delete_reporting_entry (Reporting.id old) s).1 = Return () ∧
  reporting s' = before ++ after ∧
  events s' = events s ∧
  reporting_seq s' = reporting_seq s ∧
  select_reporting s' (Reporting.id old) = None ∧
  S (count_rows (Reporting.event_id old) s') =
    count_rows (Reporting.event_id old) s.
Proof.
  intros Hnd Hs s'. subst s'.
  destruct (delete_step s before after old Hnd Hs) as [-> Hs'].
  cbn [fst snd]. unfold unique_ids in Hnd. rewrite Hs in Hnd.
  split; [done|]. split; [done|]. split; [done|]. split; [done|]. split.
  - apply select_reporting_None. intros r Hr. rewrite Hs' in Hr.
    by apply (ids_apart before old after).
  - unfold count_rows, rows_of. rewrite Hs', Hs, !filter_app, !length_app.
    rewrite filter_cons_True by done. simpl. lia.
Qed.

Lemma delete_removes_one_row_witness :
  Reporting.id <$> reporting (delete_reporting_entry 7 store0).2 = [3; 5].
Proof.
  destruct (delete_removes_one_row store0
              [Reporting.mk 3 1 "alt" None None (Some 40) None None None]
              [Reporting.mk 5 2 "Herbstferien" (Some 97) None (Some 0)
                 None None None]
              (Reporting.mk 7 1 "alt" None None None None None None)
              (proj1 store0_ok) eq_refl) as (_ & Hrows & _).
  exact (f_equal (fmap Reporting.id) Hrows).
Defined.

Lemma manual_endpoint_raises s reporting_in :
  raised (create_reporting_entry_manual reporting_in) s =
  bool_decide
    (¬ references_event s (manual_row reporting_in (reporting_seq s))).
Proof.
  unfold raised, trace. rewrite handler_manual_endpoint.
  cbn [snd]. apply bool_decide_ext.
  case_decide; split; try done.
  - intros Hin. apply elem_of_cons in Hin as [Hin|Hin]; [done|].
    by apply elem_of_nil in Hin.
  - intros _. set_solver.
Qed.

Lemma manual_endpoint_accepted s reporting_in :
  raised (create_reporting_entry_manual reporting_in) s = false →
  references_event s (manual_row reporting_in (reporting_seq s)).
Proof.
  rewrite manual_endpoint_raises. intros Hraised.
  apply bool_decide_eq_false in Hraised.
  by destruct (decide (references_event s
                         (manual_row reporting_in (reporting_seq s)))).
Qed.

Lemma store99_ok : store_ok store99.
Proof.
  split.
  - apply (bool_decide_unpack _). vm_compute. exact I.
  - apply (bool_decide_unpack _). vm_compute. exact I.
Defined.

(** X10.  When the database accepts the row of a manual submission (its
    [event_id] is that of a stored event), deleting that row gives back the
    rows there were, but not the id: the sequence has moved on, and the
    next manual submission the database accepts is stored under a new
    id. *)
Theorem insert_then_delete_restores_rows_not_id
    (s : Store) (reporting_in next_in : ReportingCreate.t) :
  store_ok s →
  raised (create_reporting_entry_manual reporting_in) s = false →
  let r := result (create_reporting_entry_manual reporting_in) s in
  let s1 := final (create_reporting_entry_manual reporting_in) s in
  let s2 := (delete_reporting_entry (Reporting.id r) s1).2 in
  raised (create_reporting_entry_manual next_in) s2 = false →
  let r' := result (create_reporting_entry_manual next_in) s2 in
  (delete_reporting_entry (Reporting.id r) s1).1 = Return () ∧
  reporting s2 = reporting s ∧
  events s2 = events s ∧
  reporting (final (create_reporting_entry_manual next_in) s2) =
    reporting s ++ [r'] ∧
  Reporting.id r' = Reporting.id r + 1.
Proof.
  intros Hok Hfk%manual_endpoint_accepted r s1 s2.
  assert (reporting s1 = reporting s ++ [r]) as Hs1.
  { unfold s1, r, final, result. rewrite handler_manual_endpoint.
    cbn [fst snd reporting]. by rewrite decide_True. }
  assert (reporting_seq s1 = reporting_seq s + 1) as Hseq1.
  { unfold s1, final. by rewrite handler_manual_endpoint. }
  assert (Reporting.id r = reporting_seq s) as Hid
    by (unfold r, result; by rewrite handler_manual_endpoint).
  assert (store_ok s1) as [Hnd1 _]
    by exact (store_ok_append s s1 r Hok Hs1 Hid Hseq1).
  destruct (delete_step s1 (reporting s) [] r Hnd1 Hs1) as [Hdel Hs2].
  rewrite app_nil_r in Hs2.
  assert (s2 = db_delete r s1) as Hs2' by (unfold s2; by rewrite Hdel).
  assert (events s2 = events s) as Hev2.
  { rewrite Hs2'. unfold s1, final, db_delete.
    by rewrite handler_manual_endpoint. }
  assert (reporting_seq s2 = reporting_seq s + 1) as Hseq2
    by by rewrite Hs2'.
  rewrite <- Hs2' in Hs2.
  intros Hfk'%manual_endpoint_accepted r'.
  split; [by rewrite Hdel|]. split; [exact Hs2|]. split; [exact Hev2|].
  rewrite Hid. unfold r', final, result.
  rewrite (handler_manual_endpoint next_in s2).
  cbn [fst snd reporting]. rewrite decide_True by done.
  rewrite Hs2, Hseq2. done.
Qed.

Lemma insert_then_delete_restores_rows_not_id_witness :
  let r := result (create_reporting_entry_manual (req 0 5)) store99 in
  let s1 := final (create_reporting_entry_manual (req 0 5)) store99 in
  let s2 := (delete_reporting_entry (Reporting.id r) s1).2 in
  reporting s2 = reporting store99 ∧
  Reporting.id (result (create_reporting_entry_manual (req 0 6)) s2) = 9.
Proof.
  intros r s1 s2.
  destruct (insert_then_delete_restores_rows_not_id
              store99 (req 0 5) (req 0 6) store99_ok eq_refl eq_refl)
    as (_ & Hrows & _ & _ & Hid).
  split; [exact Hrows|exact Hid].
Defined.







(** X12.  When the event resolves, the title, date and start time of the
    submission are not used: two submissions that agree on the event id,
    the visitor and the three annotations have the same entry, the same
    store afterwards and the same log. *)
Theorem resolved_event_ignores_submitted_snapshot
    (s : Store) (in1 in2 : ReportingCreate.t) (event : Event.t) :
  lookup_event s (ReportingCreate.event_id in1) = Some event →
  ReportingCreate.event_id in2 = ReportingCreate.event_id in1 →
  ReportingCreate.visitor in2 = ReportingCreate.visitor in1 →
  ReportingCreate.vacation in2 = ReportingCreate.vacation in1 →
  ReportingCreate.holiday in2 = ReportingCreate.holiday in1 →
  ReportingCreate.special in2 = ReportingCreate.special in1 →
  create_reporting_entry in2 s = create_reporting_entry in1 s ∧
  Reporting.event_title (result (create_reporting_entry in1) s) =
    Event.title event ∧
  Reporting.event_date (result (create_reporting_entry in1) s) =
    Event.start_date event ∧
  Reporting.event_start_time (result (create_reporting_entry in1) s) =
    Event.start_time event.
Proof.
  intros Hev Hid Hvis Hvac Hhol Hspe.
  assert (lookup_event s (ReportingCreate.event_id in2) = Some event)
    as Hev2 by by rewrite Hid.
  unfold result.
  destruct (result (select_latest_reporting (Event.id event)) s)
    as [existing|] eqn:Hex.
  - rewrite (handler_update _ _ _ _ Hev Hex),
      (handler_update _ _ _ _ Hev2 Hex).
    unfold annotated. by rewrite Hid, Hvis, Hvac, Hhol, Hspe.
  - rewrite (handler_insert _ _ _ Hev Hex), (handler_insert _ _ _ Hev2 Hex).
    unfold annotated. by rewrite Hid, Hvis, Hvac, Hhol, Hspe.
Qed.

Lemma resolved_event_ignores_submitted_snapshot_witness :
  Reporting.event_title
    (result (create_reporting_entry
               (ReportingCreate.mk 1 5 None None None (Some "anders")
                  (Some 1) (Some 2))) store0) = "Gottesdienst".
Proof.
  apply (resolved_event_ignores_submitted_snapshot store0
           (ReportingCreate.mk 1 5 None None None (Some "anders")
              (Some 1) (Some 2))
           (ReportingCreate.mk 1 5 None None None None None None)
           ev_service); reflexivity.
Defined.

(** ** The visitor report *)

Section report_properties.
Variable date_isoformat : date → string.
Variable time_isoformat : time → string.

Local Abbreviation item := (report_item date_isoformat time_isoformat).
Local Abbreviation report :=
  (report_visitors_by_title date_isoformat time_isoformat).

Lemma foldl_report_step (entries : list Reporting.t)
    (results : list VisitorItem.t) :
  foldl (report_step date_isoformat time_isoformat) results entries =
  results ++
  omap (λ entry, item entry <$> Reporting.visitor entry) entries.
Proof.
  revert results. induction entries as [|entry entries IH];
    intros results; simpl; [by rewrite app_nil_r|].
  rewrite IH. unfold report_step.
  destruct (Reporting.visitor entry); simpl; [|done].
  by rewrite <- app_assoc.
Qed.

Lemma report_query (start_date end_date : option date) (s : Store) :
  report start_date end_date s =
  omap (λ entry, item entry <$> Reporting.visitor entry)
    (merge_sort report_order
       (filter (in_bounds start_date end_date) (reporting s))).
Proof.
  unfold report_visitors_by_title. rewrite foldl_report_step. simpl.
  do 2 f_equal. unfold in_bounds.
  destruct start_date, end_date; simpl.
  - rewrite list_filter_filter. apply list_filter_iff. tauto.
  - apply list_filter_iff. tauto.
  - apply list_filter_iff. tauto.
  - symmetry. by apply filter_all.
Qed.

Global Instance report_order_total : Total report_order.
Proof.
  intros a b. unfold report_order, desc_before.
  destruct (Reporting.event_date a) as [da|],
    (Reporting.event_date b) as [db|]; try tauto;
  destruct (Reporting.event_start_time a) as [ta|],
    (Reporting.event_start_time b) as [tb|]; try tauto;
  try destruct (Z.lt_total da db) as [?|[->|?]];
  try destruct (Z.lt_total ta tb) as [?|[->|?]];
  try tauto; destruct (Z.le_ge_cases (Reporting.id a) (Reporting.id b));
  tauto.
Qed.

Global Instance report_order_trans : Transitive report_order.
Proof.
  intros a b c. unfold report_order, desc_before.
  destruct (Reporting.event_date a) as [da|],
    (Reporting.event_date b) as [db|],
    (Reporting.event_date c) as [dc|];
  destruct (Reporting.event_start_time a) as [ta|],
    (Reporting.event_start_time b) as [tb|],
    (Reporting.event_start_time c) as [tc|];
  intros [?|[? [?|[? ?]]]] [?|[? [?|[? ?]]]]; simplify_eq;
  try tauto; try (left; lia); try (right; split; [done|left; lia]);
  try (right; split; [done|right; split; [done|lia]]).
Qed.

Lemma StronglySorted_filter {A} (R : relation A) (P : A → Prop)
    `{!∀ x, Decision (P x)} (l : list A) :
  StronglySorted R l → StronglySorted R (filter P l).
Proof.
  induction 1 as [|x l Hl IH Hall]; [constructor|].
  rewrite filter_cons. case_decide; [|done].
  constructor; [done|]. apply Forall_forall. intros y Hy.
  apply list_elem_of_filter in Hy as [_ Hy].
  by apply (proj1 (Forall_forall _ _) Hall).
Qed.

Lemma omap_filter_visitor (entries : list Reporting.t) :
  omap (λ entry, item entry <$> Reporting.visitor entry)
    (filter (λ r, is_Some (Reporting.visitor r)) entries) =
  omap (λ entry, item entry <$> Reporting.visitor entry) entries ∧
  length (omap (λ entry, item entry <$> Reporting.visitor entry) entries) =
  length (filter (λ r, is_Some (Reporting.visitor r)) entries).
Proof.
  induction entries as [|entry entries [IH1 IH2]]; [done|].
  destruct (Reporting.visitor entry) as [v|] eqn:Hv.
  - rewrite filter_cons_True by (rewrite Hv; by exists v).
    simpl. rewrite Hv. simpl. split; f_equal; [exact IH1 | exact IH2].
  - rewrite filter_cons_False by (rewrite Hv; by intros [? ?]).
    simpl. rewrite Hv. simpl. split; [exact IH1 | exact IH2].
Qed.

Lemma elem_of_report (start_date end_date : option date) (s : Store)
    (it : VisitorItem.t) :
  it ∈ report start_date end_date s ↔
  ∃ r v, r ∈ reporting s ∧ in_bounds start_date end_date r ∧
         Reporting.visitor r = Some v ∧ it = item r v.
Proof.
  rewrite report_query, list_elem_of_omap. split.
  - intros (r & Hr & Hit). rewrite merge_sort_Permutation in Hr.
    apply list_elem_of_filter in Hr as [Hb Hr].
    destruct (Reporting.visitor r) as [v|] eqn:Hv; [|done].
    exists r, v. by simplify_eq/=.
  - intros (r & v & Hr & Hb & Hv & ->). exists r. split.
    + rewrite merge_sort_Permutation. by apply list_elem_of_filter.
    + by rewrite Hv.
Qed.

(** X13.  The visitor report is made of the stored rows that have a
    visitor count and lie within the bounds given, one item for each,
    ordered by date, then start time, then id, each descending, with
    absent dates and times first. *)
Theorem report_is_sorted_rows_with_visitors
    (start_date end_date : option date) (s : Store) :
  ∃ entries,
    entries ≡ₚ
      filter (λ r, is_Some (Reporting.visitor r) ∧
                   in_bounds start_date end_date r) (reporting s) ∧
    StronglySorted report_order entries ∧
    report start_date end_date s =
      omap (λ entry, item entry <$> Reporting.visitor entry) entries ∧
    length (report start_date end_date s) = length entries.
Proof.
  exists (filter (λ r, is_Some (Reporting.visitor r))
            (merge_sort report_order
               (filter (in_bounds start_date end_date) (reporting s)))).
  destruct (omap_filter_visitor
              (merge_sort report_order
                 (filter (in_bounds start_date end_date) (reporting s))))
    as [Homap Hlen].
  split; [|split; [|split]].
  - by rewrite merge_sort_Permutation, list_filter_filter.
  - apply StronglySorted_filter, StronglySorted_merge_sort; apply _.
  - by rewrite report_query, Homap.
  - by rewrite report_query, Hlen.
Qed.

(** X14.  A row without a date is reported, with an empty date string,
    when no bound is given, and is left out as soon as a bound is
    given. *)
Theorem undated_row_only_in_unbounded_report
    (start_date end_date : option date) (s : Store)
    (r : Reporting.t) (v : Z) :
  unique_ids s →
  is_Some start_date ∨ is_Some end_date →
  r ∈ reporting s →
  Reporting.event_date r = None →
  Reporting.visitor r = Some v →
  item r v ∈ report None None s ∧
  VisitorItem.date (item r v) = EmptyString ∧
  item r v ∉ report start_date end_date s.
Proof.
  intros Hnd Hbound Hr Hdate Hv. split; [|split].
  - apply elem_of_report. by exists r, v.
  - unfold report_item. by rewrite Hdate.
  - intros (r' & v' & Hr' & Hb & Hv' & Heq)%elem_of_report.
    assert (r = r') as <-.
    { apply (unique_ids_eq s); [done..|].
      by apply (f_equal VisitorItem.id) in Heq. }
    unfold in_bounds in Hb. rewrite Hdate in Hb.
    destruct Hbound as [[d ->]|[d ->]]; simpl in Hb; tauto.
Qed.

(** X15.  When the database accepts a submission to POST /reporting (the
    commit does not raise on the foreign key of [event_id], and the
    visitor count fits the 32-bit INTEGER column), the entry the handler
    returns shows up in every report whose bounds its date lies in, with
    the submitted visitor count. *)
Theorem submitted_visitor_is_reported
    (start_date end_date : option date) (s : Store)
    (reporting_in : ReportingCreate.t) :
  raised (create_reporting_entry reporting_in) s = false →
  int4 (ReportingCreate.visitor reporting_in) →
  let r := result (create_reporting_entry reporting_in) s in
  let s' := final (create_reporting_entry reporting_in) s in
  in_bounds start_date end_date r →
  item r (ReportingCreate.visitor reporting_in) ∈
    report start_date end_date s'.
Proof.
  intros Hcommit _ r s' Hb.
  apply elem_of_report. exists r, (ReportingCreate.visitor reporting_in).
  split; [by apply result_stored|]. split; [done|]. split; [|done].
  apply visitor_stored.
Qed.
End report_properties.

Lemma undated_row_only_in_unbounded_report_witness :
  let row := Reporting.mk 3 1 "alt" None None (Some 40) None None None in
  report_item (λ _, "d") (λ _, "t") row 40 ∉
  report_visitors_by_title (λ _, "d") (λ _, "t") (Some 0) None store0.
Proof.
  intros row.
  apply (undated_row_only_in_unbounded_report (λ _, "d") (λ _, "t")
           (Some 0) None store0 row 40 (proj1 store0_ok)).
  - left. by exists 0.
  - simpl. left.
  - reflexivity.
  - reflexivity.
Defined.

Lemma submitted_visitor_is_reported_witness :
  let r := result (create_reporting_entry (req 1 5)) store0 in
  let s' := final (create_reporting_entry (req 1 5)) store0 in
  report_item (λ _, "d") (λ _, "t") r 5 ∈
  report_visitors_by_title (λ _, "d") (λ _, "t") (Some 100) (Some 100) s'.
Proof.
  intros r s'.
  apply (submitted_visitor_is_reported (λ _, "d") (λ _, "t")
           (Some 100) (Some 100) store0 (req 1 5)).
  - reflexivity.
  - unfold int4. simpl. lia.
  - split; vm_compute; discriminate.
Defined.

(** ** Users and the permission gates *)

Lemma replace_by_key {A} (key : A → Z) (before after : list A) (old new : A) :
  NoDup (key <$> before ++ old :: after) →
  key new = key old →
  (λ x, if decide (key x = key new) then new else x)
    <$> (before ++ old :: after) = before ++ new :: after.
Proof.
  intros Hnd Hid.
  rewrite fmap_app, fmap_cons in Hnd.
  apply NoDup_app in Hnd as (_ & Hbefore & [Hafter _]%NoDup_cons).
  rewrite fmap_app, fmap_cons, decide_True by done.
  f_equal; [|f_equal].
  - rewrite <- (list_fmap_id before) at 2. apply list_fmap_ext.
    intros i x Hx. rewrite decide_False; [done|]. intros Heq.
    apply (Hbefore (key x)).
    + apply list_elem_of_fmap_2. by eapply list_elem_of_lookup_2.
    + rewrite Heq, Hid. left.
  - rewrite <- (list_fmap_id after) at 2. apply list_fmap_ext.
    intros i x Hx. rewrite decide_False; [done|]. intros Heq.
    apply Hafter. rewrite <- Hid, <- Heq.
    apply list_elem_of_fmap_2. by eapply list_elem_of_lookup_2.
Qed.

Lemma first_by_key {A} (key : A → Z) (before after : list A) (x : A) :
  NoDup (key <$> before ++ x :: after) →
  head (filter (λ y, key y = key x) (before ++ x :: after)) = Some x.
Proof.
  intros Hnd. rewrite fmap_app, fmap_cons in Hnd.
  apply NoDup_app in Hnd as (_ & Hbefore & _).
  rewrite filter_app, filter_cons_True by done.
  rewrite (filter_none _ before); [done|].
  intros y Hy Heq. apply (Hbefore (key y)); [by apply list_elem_of_fmap_2|].
  rewrite Heq. left.
Qed.

Lemma first_by_name (before after : list User.t) (u : User.t) :
  NoDup (User.username <$> before ++ u :: after) →
  head (filter (λ y, User.username y = User.username u)
          (before ++ u :: after)) = Some u.
Proof.
  intros Hnd. rewrite fmap_app, fmap_cons in Hnd.
  apply NoDup_app in Hnd as (_ & Hbefore & _).
  rewrite filter_app, filter_cons_True by done.
  rewrite (filter_none _ before); [done|].
  intros y Hy Heq.
  apply (Hbefore (User.username y)); [by apply list_elem_of_fmap_2|].
  rewrite Heq. left.
Qed.

(** X16.  Whoever passes the admin gate passes the welcome gate: a user
    allowed to call POST /reporting/manual is allowed to call
    POST /reporting. *)
Theorem admin_gate_implies_welcome_gate (u u' : User.t) :
  get_current_admin u = Return u' →
  get_current_welcome u = Return u' ∧ User.role u' = "admin".
Proof.
  unfold get_current_admin, get_current_welcome.
  case_decide as Hrole; [done|]. intros [= <-].
  rewrite decide_False; [done|].
  rewrite Hrole. set_solver.
Qed.

Lemma admin_gate_implies_welcome_gate_witness :
  get_current_welcome user_admin = Return user_admin.
Proof.
  apply (admin_gate_implies_welcome_gate user_admin user_admin). reflexivity.
Defined.

Section accounts_properties.
Variable decode_sub : string → option (option string).
Variable get_password_hash : string → string.
Variable strip : string → string.
Variable len : string → Z.

Local Abbreviation current_user := (get_current_user decode_sub).
Local Abbreviation update := (update_user get_password_hash len).

(** X17.  A token authenticates only a stored user whose name is the
    subject of the token and who is active; an absent [is_active] counts
    as inactive. *)
Theorem authenticated_user_is_stored_and_active
    (db : Accounts) (token : string) (u : User.t) :
  current_user db token = Return u →
  u ∈ users db ∧
  decode_sub token = Some (Some (User.username u)) ∧
  User.is_active u = Some true.
Proof.
  unfold get_current_user, get_user_by_username.
  destruct (decode_sub token) as [[name|]|]; [|done..].
  destruct (head _) as [user|] eqn:Hhead; [|done].
  destruct (User.is_active user) as [[|]|] eqn:Hact; [|done..].
  intros [= <-]. apply head_Some_elem_of, list_elem_of_filter in Hhead.
  destruct Hhead as [<- ?]. done.
Qed.

(** X18.  Deactivation takes effect at once: after an admin has set
    [is_active] of another user to false, the token of that user is
    refused with 401. *)
Theorem deactivation_revokes_access
    (db : Accounts) (token : string) (target admin : User.t) :
  accounts_ok db →
  target ∈ users db →
  decode_sub token = Some (Some (User.username target)) →
  User.id target ≠ User.id admin →
  let payload := UserUpdate.mk None None (Some false) in
  (update (User.id target) payload admin db).1 =
    Return (set_is_active false target) ∧
  current_user (update (User.id target) payload admin db).2 token =
    Raise 401 "Could not validate credentials".
Proof.
  clear strip. intros (Hids & _ & Hnames & _) Hin Htok Hne payload.
  apply list_elem_of_split in Hin as (before & after & Hdb).
  rewrite Hdb in Hids, Hnames.
  unfold update_user. rewrite Hdb, (first_by_key User.id) by done.
  rewrite decide_False by tauto.
  change (apply_user_update get_password_hash len payload target)
    with (Return (set_is_active false target)).
  cbn [fst snd]. split; [done|].
  unfold get_current_user, get_user_by_username, commit_user.
  cbn [users]. rewrite Htok, Hdb.
  rewrite (replace_by_key User.id before after target
             (set_is_active false target)) by done.
  assert (NoDup (User.username <$>
                   before ++ set_is_active false target :: after)) as Hnd'
    by (rewrite fmap_app, fmap_cons in Hnames;
        by rewrite fmap_app, fmap_cons).
  pose proof (first_by_name before after _ Hnd') as Hfirst.
  cbn [User.username set_is_active] in Hfirst. by rewrite Hfirst.
Qed.
End accounts_properties.

Lemma accounts0_ok : accounts_ok accounts0.
Proof.
  repeat split; apply (bool_decide_unpack _); vm_compute; exact I.
Defined.

Lemma authenticated_user_is_stored_and_active_witness :
  User.is_active user_welcome = Some true.
Proof.
  apply (authenticated_user_is_stored_and_active
           (λ token, Some (Some token)) accounts0 "ben" user_welcome).
  reflexivity.
Defined.

Lemma deactivation_revokes_access_witness :
  get_current_user (λ token, Some (Some token))
    (update_user (λ p, p) (λ p, Z.of_nat (String.length p)) 2
       (UserUpdate.mk None None (Some false)) user_admin accounts0).2
    "ben" = Raise 401 "Could not validate credentials".
Proof.
  apply (deactivation_revokes_access (λ token, Some (Some token))
           (λ p, p) (λ p, Z.of_nat (String.length p))
           accounts0 "ben" user_welcome user_admin accounts0_ok).
  - simpl. right. left.
  - reflexivity.
  - discriminate.
Defined.

Lemma str_or_self (x : string) : str_or (Some x) EmptyString = x.
Proof. simpl. by case_decide. Qed.

Section user_management.
Variable get_password_hash : string → string.
Variable strip : string → string.
Variable len : string → Z.

Local Abbreviation create := (create_user get_password_hash strip len).
Local Abbreviation update := (update_user get_password_hash len).

(** X19.  POST /users refuses, with 400 and without touching the table,
    a name that is empty once stripped, a role that is not one of admin,
    viewer and welcome, a password of fewer than 6 characters, and a
    name that is taken. *)
Theorem create_user_refuses_bad_input
    (payload : UserCreate.t) (db : Accounts) :
  strip (UserCreate.username payload) = EmptyString ∨
  UserCreate.role payload ∉ known_roles ∨
  len (UserCreate.password payload) < 6 ∨
  (∃ u, u ∈ users db ∧
        User.username u = strip (UserCreate.username payload)) →
  ∃ detail, create payload db = (Raise 400 detail, db).
Proof.
  intros Hbad. unfold create_user. rewrite str_or_self.
  destruct (decide (strip (UserCreate.username payload) = EmptyString));
    [by eexists|].
  destruct (decide (UserCreate.role payload ∉ known_roles)); [by eexists|].
  destruct (decide (UserCreate.password payload = EmptyString ∨
                    len (UserCreate.password payload) < 6)) as [|Hpw];
    [by eexists|].
  destruct Hbad as [?|[?|[?|(u & Hu & Hname)]]]; [done|done|tauto|].
  unfold get_user_by_username.
  destruct (head _) as [existing|] eqn:Hhead; [by eexists|].
  apply head_None in Hhead. exfalso.
  by apply (filter_nil_not_elem_of _ _ u Hhead).
Qed.

(** X20.  A user that POST /users returns is stored under the stripped
    name, which is not empty, with the hashed password and one of the
    three roles; looking the name up afterwards finds this user. *)
Theorem created_user_is_found_by_name
    (payload : UserCreate.t) (db : Accounts) (u : User.t) :
  NoDup (User.username <$> users db) →
  (create payload db).1 = Return u →
  let db' := (create payload db).2 in
  users db' = users db ++ [u] ∧
  get_user_by_username db' (User.username u) = Some u ∧
  User.username u = strip (UserCreate.username payload) ∧
  User.username u ≠ EmptyString ∧
  User.password_hash u = get_password_hash (UserCreate.password payload) ∧
  User.role u ∈ known_roles ∧
  6 ≤ len (UserCreate.password payload).
Proof.
  intros Hnames. unfold create_user. rewrite str_or_self.
  destruct (decide (strip (UserCreate.username payload) = EmptyString));
    [done|].
  destruct (decide (UserCreate.role payload ∉ known_roles)) as [|Hrole];
    [done|].
  destruct (decide (UserCreate.password payload = EmptyString ∨
                    len (UserCreate.password payload) < 6)) as [|Hpw];
    [done|].
  destruct (get_user_by_username db _) as [existing|] eqn:Hget; [done|].
  cbn [fst snd]. intros [= <-]. cbn [users User.username User.role].
  split; [done|]. split.
  - unfold get_user_by_username in *. cbn [users].
    apply head_None in Hget.
    rewrite filter_app, Hget, filter_cons_True by done. done.
  - repeat split; try done; [by apply dec_stable|lia].
Qed.

Lemma user_ids_fresh (db : Accounts) (u : User.t) :
  accounts_ok db → User.id u = users_seq db →
  User.username u ∉ User.username <$> users db →
  User.role u ∈ known_roles →
  accounts_ok (mkAccounts (users db ++ [u]) (users_seq db + 1)).
Proof.
  intros (Hids & Hbelow & Hnames & Hroles) Hid Hname Hrole.
  unfold accounts_ok. cbn [users users_seq].
  rewrite !fmap_app, !Forall_app, !Forall_singleton. simpl.
  split; [|split; [|split]].
  - apply NoDup_app. split; [done|]. split; [|apply NoDup_singleton].
    intros id (u' & -> & Hu')%list_elem_of_fmap Hin.
    apply list_elem_of_singleton in Hin.
    apply (proj1 (Forall_forall _ _) Hbelow) in Hu'. simpl in Hu'. lia.
  - split; [|lia]. eapply Forall_impl; [exact Hbelow|].
    intros u' ?. simpl in *. lia.
  - apply NoDup_app. split; [done|]. split; [|apply NoDup_singleton].
    intros name Hin' ->%list_elem_of_singleton. done.
  - done.
Qed.

Lemma apply_user_update_keeps (payload : UserUpdate.t) (user new : User.t) :
  apply_user_update get_password_hash len payload user = Return new →
  User.id new = User.id user ∧
  User.username new = User.username user ∧
  (User.role user ∈ known_roles → User.role new ∈ known_roles) ∧
  User.is_active new =
    from_option Some (User.is_active user) (UserUpdate.is_active payload).
Proof.
  unfold apply_user_update.
  destruct payload as [password role is_active]. simpl.
  destruct role as [role|]; simpl.
  - destruct (decide (role ∉ known_roles)) as [|Hrole]; [done|]. simpl.
    apply dec_stable in Hrole.
    destruct password as [password|];
      [destruct (decide (len password < 6)); [done|]|];
      intros [= <-]; by destruct is_active.
  - destruct password as [password|];
      [destruct (decide (len password < 6)); [done|]|];
      intros [= <-]; by destruct is_active.
Qed.

(** X21.  POST /users and PUT /users keep the user table sound: ids
    unique and below the sequence, names unique, and every role one of
    admin, viewer and welcome. *)
Theorem user_handlers_keep_accounts_ok
    (db : Accounts) (payload : UserCreate.t)
    (user_id : Z) (change : UserUpdate.t) (current_admin : User.t) :
  accounts_ok db →
  accounts_ok (create payload db).2 ∧
  accounts_ok (update user_id change current_admin db).2.
Proof.
  intros Hok. split.
  - unfold create_user. rewrite str_or_self.
    destruct (decide (strip (UserCreate.username payload) = EmptyString));
      [done|].
    destruct (decide (UserCreate.role payload ∉ known_roles)) as [|Hrole];
      [done|].
    destruct (decide (UserCreate.password payload = EmptyString ∨
                      len (UserCreate.password payload) < 6)); [done|].
    destruct (get_user_by_username db _) as [existing|] eqn:Hget; [done|].
    cbn [snd]. apply user_ids_fresh; [done|done| |by apply dec_stable].
    cbn [User.username].
    intros (u' & Hname & Hu')%list_elem_of_fmap.
    unfold get_user_by_username in Hget. apply head_None in Hget.
    by apply (filter_nil_not_elem_of _ _ u' Hget).
  - unfold update_user.
    destruct (head _) as [user|] eqn:Hhead; [|done].
    case_decide; [done|].
    destruct (apply_user_update _ _ _ _) as [new|] eqn:Hnew; [|done].
    cbn [snd].
    apply head_Some_elem_of, list_elem_of_filter in Hhead as [_ Hin].
    apply list_elem_of_split in Hin as (before & after & Hdb).
    destruct (apply_user_update_keeps _ _ _ Hnew)
      as (Hid & Hname & Hrole & _).
    destruct Hok as (Hids & Hbelow & Hnames & Hroles).
    rewrite Hdb in Hids, Hbelow, Hnames, Hroles.
    unfold accounts_ok, commit_user. cbn [users users_seq]. rewrite Hdb.
    rewrite (replace_by_key User.id before after user new) by done.
    rewrite !fmap_app, !fmap_cons, Hid, Hname.
    rewrite !fmap_app, !fmap_cons in Hids.
    rewrite !fmap_app, !fmap_cons in Hnames.
    rewrite !Forall_app, !Forall_cons in *. rewrite Hid.
    split; [done|]. split; [done|]. split; [done|]. tauto.
Qed.

(** X22.  PUT /users never deactivates the account of the admin who
    calls it: a stored row with the caller's id that is inactive
    afterwards was inactive before. *)
Theorem update_user_never_deactivates_caller
    (db : Accounts) (user_id : Z) (change : UserUpdate.t)
    (current_admin row' : User.t) :
  row' ∈ users (update user_id change current_admin db).2 →
  User.id row' = User.id current_admin →
  User.is_active row' = Some false →
  ∃ row, row ∈ users db ∧ User.id row = User.id current_admin ∧
         User.is_active row = Some false.
Proof.
  unfold update_user.
  destruct (head _) as [user|] eqn:Hhead; [|by exists row'].
  apply head_Some_elem_of, list_elem_of_filter in Hhead as [_ Hin].
  case_decide as Hself; [by exists row'|].
  destruct (apply_user_update _ _ _ _) as [new|] eqn:Hnew; [|by exists row'].
  destruct (apply_user_update_keeps _ _ _ Hnew) as (Hid & _ & _ & Hact).
  cbn [snd]. unfold commit_user. cbn [users].
  intros (u & -> & Hu)%list_elem_of_fmap Hrow Hinactive.
  case_decide as Hsame; [|by exists u].
  exists user. rewrite <- Hid. split; [done|]. split; [done|].
  rewrite Hact in Hinactive.
  destruct (UserUpdate.is_active change) as [[|]|]; simpl in *;
    [done| |done].
  exfalso. apply Hself. split; [congruence|done].
Qed.

(** X23.  The guard of PUT /users covers deactivation only: an admin may
    set the own role to viewer, and is then refused by the admin gate. *)
Theorem admin_can_demote_itself (db : Accounts) (admin : User.t) :
  accounts_ok db →
  admin ∈ users db →
  let change := UserUpdate.mk None (Some "viewer") None in
  (update (User.id admin) change admin db).1 =
    Return (set_role "viewer" admin) ∧
  set_role "viewer" admin ∈ users (update (User.id admin) change admin db).2 ∧
  get_current_admin (set_role "viewer" admin) =
    Raise 403 "Insufficient permissions".
Proof.
  clear strip. intros (Hids & _) Hin change.
  apply list_elem_of_split in Hin as (before & after & Hdb).
  rewrite Hdb in Hids.
  unfold update_user. rewrite Hdb, (first_by_key User.id) by done.
  rewrite decide_False by (by intros [_ ?]).
  change (apply_user_update get_password_hash len change admin)
    with (Return (set_role "viewer" admin)).
  cbn [fst snd]. split; [done|]. split; [|done].
  unfold commit_user. cbn [users]. rewrite Hdb.
  rewrite (replace_by_key User.id before after admin
             (set_role "viewer" admin)) by done.
  set_solver.
Qed.
End user_management.

Lemma create_user_refuses_bad_input_witness :
  ∃ detail,
    create_user hash0 strip0 len0 (UserCreate.mk "dan" "abc" "viewer" true)
      accounts0 = (Raise 400 detail, accounts0).
Proof.
  apply (create_user_refuses_bad_input hash0 strip0 len0
           (UserCreate.mk "dan" "abc" "viewer" true) accounts0).
  right. right. left. vm_compute. reflexivity.
Defined.

Lemma created_user_is_found_by_name_witness :
  let payload := UserCreate.mk "dan" "abcdef" "viewer" true in
  get_user_by_username (create_user hash0 strip0 len0 payload accounts0).2
    "dan" = Some (User.mk 4 "dan" "#abcdef" "viewer" (Some true)).
Proof.
  intros payload.
  apply (created_user_is_found_by_name hash0 strip0 len0 payload accounts0
           (User.mk 4 "dan" "#abcdef" "viewer" (Some true))).
  - apply (bool_decide_unpack _). vm_compute. exact I.
  - reflexivity.
Defined.

Lemma user_handlers_keep_accounts_ok_witness :
  accounts_ok
    (create_user hash0 strip0 len0 (UserCreate.mk "dan" "abcdef" "viewer" true)
       accounts0).2.
Proof.
  apply (user_handlers_keep_accounts_ok hash0 strip0 len0 accounts0
           (UserCreate.mk "dan" "abcdef" "viewer" true) 1
           (UserUpdate.mk None None None) user_admin accounts0_ok).
Defined.

Lemma update_user_never_deactivates_caller_witness :
  ∃ row, row ∈ users accounts1 ∧ User.id row = 4 ∧
         User.is_active row = Some false.
Proof.
  apply (update_user_never_deactivates_caller hash0 len0 accounts1 1
           (UserUpdate.mk None (Some "viewer") None) user_off user_off).
  - simpl. right. left.
  - reflexivity.
  - reflexivity.
Defined.

Lemma admin_can_demote_itself_witness :
  get_current_admin (set_role "viewer" user_admin) =
  Raise 403 "Insufficient permissions".
Proof.
  apply (admin_can_demote_itself hash0 len0 accounts0 user_admin
           accounts0_ok).
  simpl. left.
Defined.

(** ** Remote paths *)

Lemma rstrip_slash_cons (c : ascii) (rest : string) :
  rstrip_slash (String c rest) = EmptyString ∨
  ∃ kept, rstrip_slash (String c rest) = String c kept.
Proof.
  simpl. destruct (rstrip_slash rest); [|by right; eexists].
  case_decide; [by left|by right; eexists].
Qed.

Lemma rstrip_slash_unfold (c : ascii) (rest : string) :
  rstrip_slash (String c rest) =
  match rstrip_slash rest with
  | EmptyString =>
      if decide (c = "/"%char) then EmptyString else String c EmptyString
  | String c' kept => String c (String c' kept)
  end.
Proof. done. Qed.

Lemma rstrip_slash_twice (p : string) :
  rstrip_slash (rstrip_slash p) = rstrip_slash p.
Proof.
  induction p as [|c rest IH]; [done|]. rewrite rstrip_slash_unfold.
  destruct (rstrip_slash rest) as [|c' kept] eqn:Hrest.
  - case_decide as Hc; [done|]. simpl. by rewrite decide_False.
  - by rewrite rstrip_slash_unfold, IH.
Qed.

Lemma rstrip_slash_empty (p : string) :
  rstrip_slash p = EmptyString ↔ ∃ n, p = slashes n.
Proof.
  induction p as [|c rest IH]; simpl.
  - split; [by exists 0%nat|done].
  - destruct (rstrip_slash rest) as [|c' kept] eqn:Hrest.
    + case_decide as Hc.
      * split; [|done]. intros _.
        destruct (proj1 IH eq_refl) as [n ->]. exists (S n). by rewrite Hc.
      * split; [done|]. intros [[|n] Hn]; [done|]. simpl in Hn. congruence.
    + split; [done|]. intros [[|n] Hn]; [done|]. simpl in Hn.
      injection Hn as _ ->.
      assert (String c' kept = EmptyString); [|done].
      apply IH. by exists n.
Qed.

Section paths_properties.
Variable strip : string → string.

Local Abbreviation normalise := (_normalise_remote_path strip).

Lemma normalise_cases (path_value : string) :
  ∃ p, (p = strip path_value ∧ startswith_slash p = true ∨
        p = "/" +:+ strip path_value ∧
        startswith_slash (strip path_value) = false) ∧
       (∃ rest, p = String "/" rest) ∧
       normalise path_value = if decide (p ≠ "/") then rstrip_slash p else p.
Proof.
  unfold _normalise_remote_path.
  assert (str_or (Some path_value) EmptyString = path_value) as ->
    by (simpl; by case_decide).
  destruct (startswith_slash (strip path_value)) eqn:Hstart.
  - exists (strip path_value). split; [by left|]. split; [|done].
    destruct (strip path_value) as [|c rest]; [done|]. simpl in Hstart.
    apply bool_decide_eq_true in Hstart as ->. by exists rest.
  - exists ("/" +:+ strip path_value). split; [by right|].
    split; [|done]. by eexists.
Qed.

(** X24.  A normalised path is empty or starts with a slash, and it has
    no trailing slash unless it is the root "/" itself. *)
Theorem normalised_path_shape (path_value : string) :
  let r := normalise path_value in
  (r = EmptyString ∨ ∃ rest, r = String "/" rest) ∧
  (r = "/" ∨ rstrip_slash r = r).
Proof.
  intros r. subst r.
  destruct (normalise_cases path_value) as (p & _ & [rest ->] & ->).
  case_decide as Hroot.
  - split; [|right; apply rstrip_slash_twice].
    destruct (rstrip_slash_cons "/" rest) as [->|[kept ->]];
      [by left|right; by exists kept].
  - rewrite Hroot. split; [right; by eexists|]. by left.
Qed.

(** X25.  The normalised path is empty, so not a path from the root,
    exactly when the stripped input consists of two or more slashes. *)
Theorem normalised_path_empty_iff (path_value : string) :
  normalise path_value = EmptyString ↔
  ∃ n, strip path_value = slashes (S (S n)).
Proof.
  destruct (normalise_cases path_value) as (p & Hp & [rest Hrest] & ->).
  split.
  - case_decide as Hroot; [|by intros ->].
    intros [n Hn]%rstrip_slash_empty.
    destruct n as [|[|n]]; [by rewrite Hn in Hrest|by rewrite Hn in Hroot|].
    destruct Hp as [[<- _]|[-> Hstart]]; [by exists n|].
    injection Hn as Hn.
    change (strip path_value = slashes (S n)) in Hn.
    rewrite Hn in Hstart.
    simpl in Hstart. done.
  - intros [n Hn].
    destruct Hp as [[-> _]|[_ Hstart]].
    + rewrite Hn. rewrite decide_True by done.
      apply rstrip_slash_empty. by exists (S (S n)).
    + rewrite Hn in Hstart. simpl in Hstart. done.
Qed.
End paths_properties.
